(** * cs-modbus-cli: a shallow embedding of [mb.js]

    The development follows [src/mb.js] block by block: the values the
    script manipulates, the configuration override chain, the argument
    parsers, the completion callback [output], the dispatcher [doAction]
    and the top-level script.  Line numbers in comments refer to
    [src/mb.js].  The packages the script loads (minimist, h5.buffers,
    the MODBUS master, the ports) appear through what the script hands
    them and what they hand back. *)

From Stdlib Require Import ZArith List String Ascii Bool Lia.
From Stdlib Require Import Numbers.DecimalString Numbers.DecimalPos.
Import ListNotations.

Local Open Scope string_scope.
Local Open Scope Z_scope.

(* ================================================================== *)
(** * JavaScript values *)
(* ================================================================== *)

Module Js.

(** Primitive values as they reach the script: option values produced by
    minimist (numbers, strings, booleans or nothing), environment
    variables (strings or nothing) and the leaves of the configuration
    object.  [JNum z] is the number whose value is the integer [z];
    minimist turns every token that looks like a number into one.  The
    integers meant are those a JavaScript number holds exactly, of
    magnitude up to 2^53 ([safe_integer] below): past that a number is
    a rounded double, and from 10^21 on [Number.prototype.toString]
    prints it with an exponent.  Strings are ASCII text. *)
Inductive jsval : Type :=
| JUndefined
| JBool (b : bool)
| JNum (z : Z)
| JStr (s : string).

(** The result of [parseInt]: an integer or [NaN]. *)
Inductive jsnum : Type :=
| NaN
| Num (z : Z).

(** A positional token, an element of [args._]: minimist yields a number
    or a string there, never a boolean or [undefined]. *)
Inductive token : Type :=
| TNum (z : Z)
| TStr (s : string).

Definition of_token (t : token) : jsval :=
  match t with
  | TNum z => JNum z
  | TStr s => JStr s
  end.

(** [process.env.X]: a string when set, [undefined] otherwise. *)
Definition of_env (v : option string) : jsval :=
  match v with
  | Some s => JStr s
  | None => JUndefined
  end.

(** ToBoolean. *)
Definition truthy (v : jsval) : bool :=
  match v with
  | JUndefined => false
  | JBool b => b
  | JNum z => negb (z =? 0)
  | JStr s => negb (String.eqb s "")
  end.

(** [a || b]. *)
Definition jor (a b : jsval) : jsval := if truthy a then a else b.

(** Strict equality [===] on primitives. *)
Definition strict_eq (a b : jsval) : bool :=
  match a, b with
  | JUndefined, JUndefined => true
  | JBool x, JBool y => Bool.eqb x y
  | JNum x, JNum y => x =? y
  | JStr x, JStr y => String.eqb x y
  | _, _ => false
  end.

(** ToString of an integer-valued number: its decimal digits, which is
    what JavaScript prints for magnitudes up to 2^53; the exponent
    notation of magnitudes from 10^21 on is not followed. *)
Definition string_of_Z (z : Z) : string :=
  NilEmpty.string_of_int (Z.to_int z).

(** ToString. *)
Definition toString (v : jsval) : string :=
  match v with
  | JUndefined => "undefined"
  | JBool true => "true"
  | JBool false => "false"
  | JNum z => string_of_Z z
  | JStr s => s
  end.

(** [a[k]] on an array of tokens: [undefined] past the end. *)
Definition elem (a : list token) (k : nat) : jsval :=
  match nth_error a k with
  | Some t => of_token t
  | None => JUndefined
  end.

(** ** [parseInt] *)

(** The white space [parseInt] skips, among the ASCII characters: TAB, LF,
    VT, FF, CR and SP.  The white space beyond ASCII (U+00A0, U+FEFF and
    the Unicode space separators) is not followed: strings are taken to
    be ASCII text. *)
Definition is_space (c : ascii) : bool :=
  let n := nat_of_ascii c in
  ((9 <=? n)%nat && (n <=? 13)%nat) || (n =? 32)%nat.

Fixpoint skip_space (s : string) : string :=
  match s with
  | String c rest => if is_space c then skip_space rest else s
  | EmptyString => s
  end.

(** Value of a character as a digit, for radices up to 36. *)
Definition digit_value (c : ascii) : option Z :=
  let n := Z.of_nat (nat_of_ascii c) in
  if (48 <=? n) && (n <=? 57) then Some (n - 48)
  else if (97 <=? n) && (n <=? 122) then Some (n - 87)
  else if (65 <=? n) && (n <=? 90) then Some (n - 55)
  else None.

Definition digit_in (radix : Z) (c : ascii) : option Z :=
  match digit_value c with
  | Some d => if d <? radix then Some d else None
  | None => None
  end.

(** The longest prefix of radix-[radix] digits, read left to right:
    [acc] is the value of the digits read so far, [seen] tells whether
    there was one. *)
Fixpoint scan_digits (radix : Z) (s : string) (seen : bool) (acc : Z)
  : option Z :=
  match s with
  | String c rest =>
      match digit_in radix c with
      | Some d => scan_digits radix rest true (acc * radix + d)
      | None => if seen then Some acc else None
      end
  | EmptyString => if seen then Some acc else None
  end.

Definition strip_sign (s : string) : Z * string :=
  match s with
  | String c rest =>
      if Ascii.eqb c "-" then (-1, rest)
      else if Ascii.eqb c "+" then (1, rest)
      else (1, s)
  | EmptyString => (1, s)
  end.

(** Removes a leading [0x] or [0X]; tells whether it did. *)
Definition strip_0x (s : string) : bool * string :=
  match s with
  | String a (String b rest) =>
      if Ascii.eqb a "0" && (Ascii.eqb b "x" || Ascii.eqb b "X")
      then (true, rest)
      else (false, s)
  | _ => (false, s)
  end.

(** [parseInt(s, radix)] for [radix] absent ([None]) or between 2 and 36:
    leading white space, an optional sign, with no radix or radix 16 an
    optional [0x] prefix, then the longest run of digits; [NaN] when there
    is no digit. *)
Definition parseInt_radix (s : string) (radix : option Z) : jsnum :=
  let '(sign, body) := strip_sign (skip_space s) in
  let '(r, digits) :=
    match radix with
    | None =>
        let '(hex, rest) := strip_0x body in
        (if hex then 16 else 10, rest)
    | Some r =>
        if r =? 16 then (16, snd (strip_0x body)) else (r, body)
    end in
  match scan_digits r digits false 0 with
  | Some v => Num (sign * v)
  | None => NaN
  end.

(** [parseInt(v)]: the argument is converted to a string first.  The
    result is the integer the digits spell; JavaScript returns the
    nearest double, which is that integer up to magnitude 2^53. *)
Definition parseInt (v : jsval) : jsnum :=
  parseInt_radix (toString v) None.

(** [a < b] and [a > b] with a number on the left: false for [NaN]. *)
Definition num_lt (a : jsnum) (b : Z) : bool :=
  match a with
  | Num z => z <? b
  | NaN => false
  end.

Definition num_gt (a : jsnum) (b : Z) : bool :=
  match a with
  | Num z => b <? z
  | NaN => false
  end.

(** ** ToNumber, for [args.length < 2] *)

Fixpoint rtrim (s : string) : string :=
  match s with
  | String c rest =>
      let r := rtrim rest in
      if is_space c && String.eqb r "" then "" else String c r
  | EmptyString => ""
  end.

(** A string made of radix-[radix] digits only, and at least one. *)
Fixpoint all_digits (radix : Z) (s : string) (seen : bool) (acc : Z)
  : option Z :=
  match s with
  | String c rest =>
      match digit_in radix c with
      | Some d => all_digits radix rest true (acc * radix + d)
      | None => None
      end
  | EmptyString => if seen then Some acc else None
  end.

(** StringToNumber on the integer literals: surrounding white space is
    dropped, the empty string is 0, then a signed decimal integer or an
    unsigned [0x], [0o] or [0b] integer; everything else is [NaN].
    Literals with a fraction or an exponent and [Infinity] have no
    integer value and are not covered. *)
Definition stringToNumber (s : string) : jsnum :=
  let t := rtrim (skip_space s) in
  match t with
  | EmptyString => Num 0
  | String "0" (String "x" r) | String "0" (String "X" r) =>
      match all_digits 16 r false 0 with Some v => Num v | None => NaN end
  | String "0" (String "o" r) | String "0" (String "O" r) =>
      match all_digits 8 r false 0 with Some v => Num v | None => NaN end
  | String "0" (String "b" r) | String "0" (String "B" r) =>
      match all_digits 2 r false 0 with Some v => Num v | None => NaN end
  | _ =>
      let '(sign, body) := strip_sign t in
      match all_digits 10 body false 0 with
      | Some v => Num (sign * v)
      | None => NaN
      end
  end.

(** ToNumber. *)
Definition toNumber (v : jsval) : jsnum :=
  match v with
  | JUndefined => NaN
  | JBool true => Num 1
  | JBool false => Num 0
  | JNum z => Num z
  | JStr s => stringToNumber s
  end.

(** [s.substring(a, b)] for [0 <= a <= b]. *)
Definition substring (a b : nat) (s : string) : string :=
  String.substring a (b - a) s.

(** [s.substring(a)]. *)
Definition substring_from (a : nat) (s : string) : string :=
  String.substring a (String.length s - a) s.

End Js.

Import Js.


(* ================================================================== *)
(** * Configuration (lines 13-173) *)
(* ================================================================== *)

(** The fields of the configuration object the script reads or assigns.
    The remaining fields ([websocket], [canUsbComm], the other [master]
    settings) are carried along unchanged and are left out. *)
Record config : Type := {
  port_name : jsval;                        (* config.port.name *)
  port_options_baudRate : jsval;            (* config.port.options.baudRate *)
  port_options_autoOpen : jsval;            (* config.port.options.autoOpen *)
  can_rate : jsval;                         (* config.can.rate *)
  can_myid : jsval;                         (* config.can.myid *)
  master_transport_type : jsval;            (* config.master.transport.type *)
  master_transport_connection_type : jsval; (* ...transport.connection.type *)
  master_defaultUnit : jsval                (* config.master.defaultUnit *)
}.

(** Lines 13-54. *)
Definition CONFIG_DEFAULTS : config := {|
  port_name := JStr "use_--port_to_select_port";
  port_options_baudRate := JNum 115200;
  port_options_autoOpen := JUndefined;
  can_rate := JNum 250000;
  can_myid := JNum 254;
  master_transport_type := JStr "rtu";
  master_transport_connection_type := JStr "serial";
  master_defaultUnit := JNum 1
|}.

(** The options minimist collects: [args.x] is [undefined] when the flag
    is absent.  [args__] is [args._], the positional tokens. *)
Record cli : Type := {
  args_default : jsval;
  args_port : jsval;
  args_slave : jsval;
  args_baudrate : jsval;
  args_baud : jsval;
  args_baudRate : jsval;
  args_transport : jsval;
  args_connection : jsval;
  args_canrate : jsval;
  args_canid : jsval;
  args_save : jsval;
  args_l : jsval;
  args_h : jsval;
  args_show : jsval;
  args_out : jsval;
  args_loop : jsval;
  args_length : jsval;
  args__ : list token
}.

(** [process.env] and [process.platform]. *)
Record environment : Type := {
  platform : string;
  APPDATA : option string;
  HOME : option string;
  HOMEPATH : option string;
  MODBUS_PORT : option string;
  MODBUS_SLAVE : option string;
  MODBUS_BAUDRATE : option string;
  MODBUS_TRANSPORT : option string;
  MODBUS_CONNECTION : option string;
  MODBUS_CANRATE : option string;
  MODBUS_CANID : option string
}.

(** Lines 60-63. *)
Definition CONFIG_FOLDER (env : environment) : jsval :=
  jor (of_env (APPDATA env))
      (if String.eqb (platform env) "darwin"
       then JStr (toString (of_env (HOME env)) ++ "/Library/Preferences")
       else jor (of_env (HOMEPATH env)) (of_env (HOME env))).

Definition CONFIG_FILE (env : environment) : string :=
  toString (CONFIG_FOLDER env) ++ "/.cs-mb-cli.json".

(** The persisted-defaults file as [require(CONFIG_FILE)] finds it.
    [FileJson c] is a file holding an object shaped like the defaults. *)
Inductive config_file : Type :=
| FileAbsent
| FileCorrupt
| FileJson (c : config).

Inductive require_error : Type :=
| MODULE_NOT_FOUND
| SyntaxError.

(** [require(CONFIG_FILE)]: throws when the file is missing or is not
    JSON. *)
Definition require (f : config_file) : require_error + config :=
  match f with
  | FileAbsent => inl MODULE_NOT_FOUND
  | FileCorrupt => inl SyntaxError
  | FileJson c => inr c
  end.

(** Lines 81-92. *)
Definition loadConfig (args : cli) (f : config_file) : config :=
  if truthy (args_default args) then CONFIG_DEFAULTS
  else
    match require f with
    | inr c => c
    | inl _ => CONFIG_DEFAULTS
    end.

(** Lines 113-144: the override chain, one assignment per key. *)
Definition overrides (args : cli) (env : environment) (c : config)
  : config := {|
  port_name :=
    jor (jor (args_port args) (of_env (MODBUS_PORT env))) (port_name c);
  port_options_baudRate :=
    jor (jor (jor (jor (args_baudrate args) (args_baud args))
                  (args_baudRate args))
             (of_env (MODBUS_BAUDRATE env)))
        (port_options_baudRate c);
  port_options_autoOpen := port_options_autoOpen c;
  can_rate :=
    jor (jor (args_canrate args) (of_env (MODBUS_CANRATE env))) (can_rate c);
  can_myid :=
    jor (jor (args_canid args) (of_env (MODBUS_CANID env))) (can_myid c);
  master_transport_type :=
    jor (jor (args_transport args) (of_env (MODBUS_TRANSPORT env)))
        (master_transport_type c);
  master_transport_connection_type :=
    jor (jor (args_connection args) (of_env (MODBUS_CONNECTION env)))
        (master_transport_connection_type c);
  master_defaultUnit :=
    jor (jor (args_slave args) (of_env (MODBUS_SLAVE env)))
        (master_defaultUnit c)
|}.

(** [macRE], line 160: [/^([0-9A-F]{2}[:-]){5}([0-9A-F]{2})$/i]. *)
Definition is_hex_digit (c : ascii) : bool :=
  match digit_in 16 c with Some _ => true | None => false end.

Definition is_mac_separator (c : ascii) : bool :=
  Ascii.eqb c ":" || Ascii.eqb c "-".

(** [groups] pairs of hexadecimal digits each followed by a separator,
    then one last pair and the end of the string. *)
Fixpoint mac_groups (groups : nat) (s : string) : bool :=
  match groups, s with
  | O, String a (String b EmptyString) => is_hex_digit a && is_hex_digit b
  | S n, String a (String b (String sep rest)) =>
      is_hex_digit a && is_hex_digit b && is_mac_separator sep
      && mac_groups n rest
  | _, _ => false
  end.

Definition macRE_test (v : jsval) : bool := mac_groups 5 (toString v).

(** Lines 162-173. *)
Definition macRewrite (args : cli) (c : config) : config :=
  if negb (truthy (args_l args)) && truthy (port_name c)
     && macRE_test (port_name c)
  then {|
    port_name := port_name c;
    port_options_baudRate := port_options_baudRate c;
    port_options_autoOpen := port_options_autoOpen c;
    can_rate := can_rate c;
    can_myid := can_myid c;
    master_transport_type := JStr "ip";
    master_transport_connection_type := JStr "ble";
    master_defaultUnit := master_defaultUnit c
  |}
  else {|
    port_name := port_name c;
    port_options_baudRate := port_options_baudRate c;
    port_options_autoOpen := JBool false;
    can_rate := can_rate c;
    can_myid := can_myid c;
    master_transport_type := master_transport_type c;
    master_transport_connection_type := master_transport_connection_type c;
    master_defaultUnit := master_defaultUnit c
  |}.

(** The configuration as it stands when the save block (line 150) runs. *)
Definition resolved (args : cli) (env : environment) (f : config_file)
  : config :=
  overrides args env (loadConfig args f).

(** The configuration the rest of the script works with (after line
    173). *)
Definition effective (args : cli) (env : environment) (f : config_file)
  : config :=
  macRewrite args (resolved args env f).

(* ================================================================== *)
(** * Argument parsing (lines 225-317) *)
(* ================================================================== *)

(** What a piece of the script comes to: a value, a message on stderr
    followed by [exit(code)], which ends the process on the spot, or an
    exception nobody catches.  Messages are given without the colour
    codes chalk wraps them in. *)
Inductive attempt (A : Type) : Type :=
| Done (a : A)
| Fatal (stderr : string) (code : Z)
| Thrown.

Arguments Done {A} a.
Arguments Fatal {A} stderr code.
Arguments Thrown {A}.

(** The number read from one token, as lines 243-248, 268-273 and 301-306
    spell it out each time:
    [if (x.toString().substring(0,1) === '0x')
       number = parseInt(x.substring(2), 16);
     else number = parseInt(x);]
    [None] stands for the TypeError of calling [toString] on [undefined]
    or [substring] on a value that is not a string. *)
Definition tokenNumber (x : jsval) : option jsnum :=
  match x with
  | JUndefined => None
  | _ =>
      if String.eqb (substring 0 1 (toString x)) "0x" then
        match x with
        | JStr s => Some (parseInt_radix (substring_from 2 s) (Some 16))
        | _ => None
        end
      else Some (parseInt x)
  end.

(** Lines 235-251. *)
Definition parseNumber (s : jsval) (def : jsnum) : option jsnum :=
  match s with
  | JUndefined => Some def
  | _ => tokenNumber s
  end.

(** [new Buffer(values)] on an array of numbers: each entry is reduced to
    an octet, [NaN] becoming 0. *)
Definition toUint8 (n : jsnum) : Z :=
  match n with
  | NaN => 0
  | Num z => z mod 256
  end.

Definition Buffer_of_array (values : list jsnum) : list Z :=
  map toUint8 values.

(** The loop of lines 265-280 over the tokens still to read; [values] is
    the array built so far. *)
Fixpoint byteLoop (rest : list token) (values : list jsnum)
  : attempt (list jsnum) :=
  match rest with
  | [] => Done values
  | t :: rest' =>
      match tokenNumber (of_token t) with
      | None => Thrown
      | Some number =>
          if num_lt number 0 || num_gt number 255
          then Fatal ("Invalid data value: " ++ toString (of_token t)) 1
          else byteLoop rest' (values ++ [number])%list
      end
  end.

(** Lines 260-284. *)
Definition argsToByteBuf (args : list token) (start : nat)
  : attempt (list Z) :=
  match byteLoop (skipn start args) [] with
  | Done values => Done (Buffer_of_array values)
  | Fatal m c => Fatal m c
  | Thrown => Thrown
  end.

(** The two octets of a 16-bit word, high octet first. *)
Definition uint16BE (z : Z) : list Z := [(z / 256) mod 256; z mod 256].

(** A token that reads as a number, not [NaN], lying outside [0, max]. *)
Definition finite_outside (max : Z) (t : token) : Prop :=
  exists z, parseInt (of_token t) = Num z /\ (z < 0 \/ max < z).

(** A token that reads as a number within [0, max]. *)
Definition finite_within (max : Z) (t : token) : Prop :=
  exists z, parseInt (of_token t) = Num z /\ 0 <= z <= max.

(** The octet a token leaves in the byte buffer, and the octets it leaves
    in the word buffer when it reads as a number. *)
Definition octet_of (t : token) : Z := toUint8 (parseInt (of_token t)).

Definition word_of (t : token) : list Z :=
  match parseInt (of_token t) with
  | Num z => uint16BE z
  | NaN => []
  end.

Section WithBufferBuilder.

(** [BufferBuilder] comes from the h5.buffers package, which is not part
    of the repository.  [pushUInt16] appends the two octets of its
    argument, high octet first; the script hands it numbers between 0
    and 65535 or [NaN].  What the builder does with [NaN] is the
    package's business: [pushUInt16_NaN] is [None] when the call raises
    and [Some bs] when it appends the octets [bs].  The package as
    published raises, which is [h5_buffers] below; what does not depend
    on it is stated for either. *)
Variable pushUInt16_NaN : option (list Z).

Definition pushUInt16 (data : list Z) (n : jsnum) : option (list Z) :=
  match n with
  | Num z => Some (data ++ uint16BE z)%list
  | NaN =>
      match pushUInt16_NaN with
      | Some bs => Some (data ++ bs)%list
      | None => None
      end
  end.

(** The loop of lines 298-313; [data] is the content of the builder. *)
Fixpoint wordLoop (rest : list token) (data : list Z)
  : attempt (list Z) :=
  match rest with
  | [] => Done data
  | t :: rest' =>
      match tokenNumber (of_token t) with
      | None => Thrown
      | Some number =>
          if num_lt number 0 || num_gt number 65535
          then Fatal ("Invalid data value: " ++ toString (of_token t)) 1
          else
            match pushUInt16 data number with
            | Some data' => wordLoop rest' data'
            | None => Thrown
            end
      end
  end.

(** Lines 294-317. *)
Definition argsToWordBuf (args : list token) (start : nat)
  : attempt (list Z) :=
  wordLoop (skipn start args) [].

(* ================================================================== *)
(** * The completion callback (lines 185-223) *)
(* ================================================================== *)

(** What [output] leaves behind: [exit(code)] or
    [setImmediate(doAction)]. *)
Inductive continuation : Type :=
| Terminate (code : Z)
| Again.

(** Lines 199-223.  [err] is the error object the master passes, if any;
    [response] the octets of [response.toBuffer()]; [now] the clock read
    by [new Date().getTime()].  The result is the lines printed and what
    happens next. *)
Definition output (args : cli) (startTime now : Z)
    (err : option string) (response : list Z)
  : list string * continuation :=
  match err with
  | Some _ => ([], Terminate 1)
  | None =>
      let printed :=
        if strict_eq (JStr "csv") (args_out args) then
          let timemark := now - startTime in
          [string_of_Z timemark ++ ","
             ++ String.concat "," (map string_of_Z response)]
        else [] in
      (printed, if truthy (args_loop args) then Again else Terminate 0)
  end.

(* ================================================================== *)
(** * The dispatcher (lines 395-540) *)
(* ================================================================== *)

(** The requests [doAction] hands to the master, each with [output] as
    its callback. *)
Inductive master_call : Type :=
| readCoils (address quantity : jsval)
| readDiscreteInputs (address quantity : jsval)
| readHoldingRegisters (address quantity : jsval)
| readInputRegisters (address quantity : jsval)
| reportSlaveId
| readFifo8 (id max : jsval)
| readObject (id : jsval)
| readMemory (address length : jsnum)
| writeSingleCoil (address values : jsval)
| writeMultipleRegisters (address : jsval) (values : list Z)
| writeFifo8 (id : jsval) (values : list jsval)
| writeMemory (address : jsnum) (values : list Z)
| command (id : jsval) (buf : list Z).

Definition same (v : jsval) (s : string) : bool := strict_eq v (JStr s).

(** [x < 2] for a value [x]. *)
Definition less_than_2 (x : jsval) : bool := num_lt (toNumber x) 2.

(** Lines 396-540; [action] is [args._[0]] (line 607).  [Done m] says
    that the script gets as far as calling the master with [m].  What
    the master does with the call, sending the request or refusing its
    arguments by raising, is the master's own code and is not told
    here; [Fatal] and [Thrown] are what the script's own lines do
    before that call. *)
Definition doAction (args : cli) : attempt master_call :=
  let a := args__ args in
  let action := elem a 0 in
  if same action "read" then
    let type := jor (elem a 1) (JStr "unknown") in
    if same type "coil" then
      Done (readCoils (jor (elem a 2) (JNum 0)) (jor (elem a 3) (JNum 1)))
    else if same type "discrete" then
      Done (readDiscreteInputs (jor (elem a 2) (JNum 0))
                               (jor (elem a 3) (JNum 1)))
    else if same type "holding" then
      Done (readHoldingRegisters (jor (elem a 2) (JNum 0))
                                 (jor (elem a 3) (JNum 1)))
    else if same type "input" then
      Done (readInputRegisters (jor (elem a 2) (JNum 0))
                               (jor (elem a 3) (JNum 1)))
    else if same type "slave" then
      Done reportSlaveId
    else if same type "fifo" then
      Done (readFifo8 (jor (elem a 2) (JNum 0)) (jor (elem a 3) (JNum 250)))
    else if same type "object" then
      Done (readObject (jor (elem a 2) (JNum 0)))
    else if same type "memory" then
      match parseNumber (elem a 2) (Num 0) with
      | None => Thrown
      | Some address =>
          match parseNumber (elem a 3) (Num 1) with
          | None => Thrown
          | Some length => Done (readMemory address length)
          end
      end
    else Fatal ("Trying to read unknown item " ++ toString type) 1
  else if same action "write" then
    let type := jor (elem a 1) (JStr "unknown") in
    if same type "coil" then
      Done (writeSingleCoil (jor (elem a 2) (JNum 0))
                            (jor (elem a 3) (JNum 1)))
    else if same type "holding" then
      let address := jor (elem a 2) (JNum 0) in
      match argsToWordBuf a 3 with
      | Fatal m c => Fatal m c
      | Thrown => Thrown
      | Done values =>
          if (Z.of_nat (List.length values) <? 2)
          then Fatal "No values specified " 1
          else Done (writeMultipleRegisters address values)
      end
    else if same type "fifo" then
      Done (writeFifo8 (jor (elem a 2) (JNum 0)) [jor (elem a 3) (JNum 0)])
    else if same type "memory" then
      match parseNumber (elem a 2) (Num 0) with
      | None => Thrown
      | Some address =>
          match argsToByteBuf a 3 with
          | Fatal m c => Fatal m c
          | Thrown => Thrown
          | Done values => Done (writeMemory address values)
          end
      end
    else Fatal ("Trying to write unknown item " ++ toString type) 1
  else if same action "command" then
    if less_than_2 (args_length args)
    then Fatal "Trying to write unknown item undefined" 1
    else
      match argsToByteBuf a 2 with
      | Fatal m c => Fatal m c
      | Thrown => Thrown
      | Done buf => Done (command (elem a 1) buf)
      end
  else Fatal ("Unknown action: " ++ toString action) 1.

(* ================================================================== *)
(** * The script from top to bottom *)
(* ================================================================== *)

(** What can be observed of a run, in order. *)
Inductive event : Type :=
| Stdout (line : string)
| Stderr (line : string)
| WriteFile (path : string) (c : config)
                             (* fs.writeFileSync(path, JSON.stringify(c, null, 4)) *)
| Help                       (* the help text, lines 321-389 *)
| Show (c : config)          (* console.log(util.inspect(config)) *)
| ListPorts (c : config)     (* the port listing of lines 543-600 *)
| CreateMaster (c : config)  (* ModbusPort.createMaster(config.master) *)
| Open (c : config)          (* port.open(...) *)
| Call (m : master_call)     (* a request to the master *)
| DestroyMaster              (* master.destroy() *)
| ProcessExit (code : Z)     (* process.exit(code) *)
| UncaughtException.         (* an exception reaches the top: node stops *)

(** The status a run ends the process with: the argument of
    [process.exit], or 1 after an uncaught exception.  [None] when the
    run does neither: node is then waiting for events, or has nothing
    left to wait for and stops with status 0. *)
Definition exit_status (trace : list event) : option Z :=
  match last trace (Stdout "") with
  | ProcessExit code => Some code
  | UncaughtException => Some 1
  | _ => None
  end.

(** [exit(code)], lines 185-192: the master is destroyed when there is
    one (the TypeError of [master.destroy()] on [undefined] is caught),
    then the process exits. *)
Definition exit (master_created : bool) (code : Z) : list event :=
  ((if master_created then [DestroyMaster] else []) ++ [ProcessExit code])%list.

(** A completion the master delivers: the arguments of [output] and the
    clock at that moment. *)
Record reply : Type := {
  reply_err : option string;
  reply_buffer : list Z;
  reply_time : Z
}.

(** What the outside world does once the connection has been set up:
    nothing, an open that fails, or a master that reports [connected] at
    [startTime] and then answers the requests with [replies], in order. *)
Inductive link : Type :=
| LinkSilent
| LinkFails (err : string)
| LinkUp (startTime : Z) (replies : list reply).

(** [doAction] and the callbacks that follow it, one reply at a time. *)
Fixpoint dispatch (args : cli) (startTime : Z) (replies : list reply)
  : list event :=
  match doAction args with
  | Fatal m code => Stderr m :: exit true code
  | Thrown => [UncaughtException]
  | Done m =>
      Call m ::
      match replies with
      | [] => []
      | r :: rest =>
          let '(printed, next) :=
            output args startTime (reply_time r) (reply_err r)
                   (reply_buffer r) in
          (map Stdout printed ++
           match next with
           | Terminate code => exit true code
           | Again => dispatch args startTime rest
           end)%list
      end
  end.

(** [createMaster()], lines 818-931: the master is created at once; the
    handlers it registers only log, except the one for [connected]. *)
Definition createMaster (c : config) : list event := [CreateMaster c].

(** The [connected] handler, lines 825-833, once the master is up. *)
Definition connected (args : cli) (w : link) : list event :=
  match w with
  | LinkUp startTime replies =>
      Stdout "MASTER - connected" :: dispatch args startTime replies
  | _ => []
  end.

(** The callback of [port.open], lines 682-687 and 807-812: a failure is
    printed and ends the process. *)
Definition opened (args : cli) (w : link) : list event :=
  match w with
  | LinkFails err => Stdout err :: exit true 1
  | _ => connected args w
  end.

Definition with_connection (c : config) (kind : string) : config := {|
  port_name := port_name c;
  port_options_baudRate := port_options_baudRate c;
  port_options_autoOpen := port_options_autoOpen c;
  can_rate := can_rate c;
  can_myid := can_myid c;
  master_transport_type := master_transport_type c;
  master_transport_connection_type := JStr kind;
  master_defaultUnit := master_defaultUnit c
|}.

Definition with_transport (c : config) (kind : string) : config := {|
  port_name := port_name c;
  port_options_baudRate := port_options_baudRate c;
  port_options_autoOpen := port_options_autoOpen c;
  can_rate := can_rate c;
  can_myid := can_myid c;
  master_transport_type := JStr kind;
  master_transport_connection_type := master_transport_connection_type c;
  master_defaultUnit := master_defaultUnit c
|}.

(** Lines 662-814: the connection is chosen by
    [config.master.transport.connection.type]. *)
Definition connect (args : cli) (c : config) (w : link) : list event :=
  let kind := master_transport_connection_type c in
  if same kind "serial" then
    (createMaster c ++ Open c :: opened args w)%list
  else if same kind "websocket" then
    (createMaster c ++ connected args w)%list
  else if same kind "ble" then
    (* nothing happens before a peripheral is discovered *)
    let c' := with_transport (with_connection c "generic") "ip" in
    match w with
    | LinkSilent => []
    | LinkFails err =>
        (createMaster c' ++ [Stdout ("[device#error] " ++ err)])%list
    | LinkUp _ _ => (createMaster c' ++ connected args w)%list
    end
  else if same kind "can-usb-com" then
    let c' := with_connection c "generic" in
    (createMaster c' ++ Open c' :: opened args w)%list
  else [].

(** Line 609: [['read', 'write', 'command'].indexOf(action) < 0]. *)
Definition unknownAction (action : jsval) : bool :=
  negb (same action "read" || same action "write" || same action "command").

(** Lines 542-816, with the configuration of line 173. *)
Definition run (args : cli) (c : config) (w : link) : list event :=
  if truthy (args_l args) then
    if same (master_transport_connection_type c) "ble" then [ListPorts c]
    else if same (master_transport_connection_type c) "serial"
    then [ListPorts c; ProcessExit 0]
    else []
  else if truthy (args_show args) then [Show c]
  else
    let action := elem (args__ args) 0 in
    if unknownAction action then
      Stderr ("Unknown Action " ++ toString action ++ " Requested")
        :: exit false 1
    else connect args c w.

(** Lines 320-816: the help text, or the run. *)
Definition after_setup (args : cli) (c : config) (w : link) : list event :=
  if truthy (args_h args) then [Help; ProcessExit 0] else run args c w.

Definition CR : string := String (ascii_of_nat 13) "".

(** The whole script.  [fs_ok] tells whether [fs.writeFileSync] succeeds;
    when it does not, it throws and nothing catches the exception. *)
Definition main (args : cli) (env : environment) (f : config_file)
    (fs_ok : bool) (w : link) : list event :=
  let c := resolved args env f in
  if truthy (args_save args) then
    Stdout ("Writing configuration file: " ++ CR ++ CONFIG_FILE env ++ CR) ::
    (if fs_ok
     then WriteFile (CONFIG_FILE env) c :: after_setup args (macRewrite args c) w
     else [UncaughtException])
  else after_setup args (macRewrite args c) w.

End WithBufferBuilder.

(* ================================================================== *)
(** * Further pieces of the script *)
(* ================================================================== *)

(** The integers a JavaScript number holds exactly and prints digit by
    digit. *)
Definition safe_integer (z : Z) : Prop := - 2 ^ 53 <= z <= 2 ^ 53.

Fixpoint ascii_only (s : string) : bool :=
  match s with
  | String c rest => (nat_of_ascii c <? 128)%nat && ascii_only rest
  | EmptyString => true
  end.

(** The tokens on which [parseInt] above is JavaScript's [parseInt] to
    the last digit: a number token that is a safe integer, a string
    token of ASCII characters whose digits, if it has any, spell a safe
    integer. *)
Definition plain (t : token) : Prop :=
  match t with
  | TNum z => safe_integer z
  | TStr s =>
      ascii_only s = true /\
      match parseInt (JStr s) with
      | Num z => safe_integer z
      | NaN => True
      end
  end.

(** [pushUInt16] of the h5.buffers package the script loads (line 110)
    raises when it is handed [NaN]. *)
Definition h5_buffers : option (list Z) := None.

(** What a reader of the word buffer gets back with [readUInt16BE], two
    octets at a time; a trailing single octet is no word. *)
Fixpoint decodeUInt16BE (buf : list Z) : list Z :=
  match buf with
  | hi :: lo :: rest => hi * 256 + lo :: decodeUInt16BE rest
  | _ => []
  end.

(** Line 95: [isAscii] is read off the configuration as loaded, before
    the override chain runs. *)
Definition isAscii (args : cli) (f : config_file) : bool :=
  strict_eq (master_transport_type (loadConfig args f)) (JStr "ascii").

(** The seven keys of the override chain (lines 113-144), with the
    command-line value, the environment variable and the configuration
    field each one reads.  The baud rate has three spellings on the
    command line. *)
Inductive key : Type :=
| Port | Unit | Baud | Transport | Connection | CanRate | CanId.

Definition cli_value (k : key) (args : cli) : jsval :=
  match k with
  | Port => args_port args
  | Unit => args_slave args
  | Baud => jor (jor (args_baudrate args) (args_baud args))
                (args_baudRate args)
  | Transport => args_transport args
  | Connection => args_connection args
  | CanRate => args_canrate args
  | CanId => args_canid args
  end.

Definition env_value (k : key) (env : environment) : option string :=
  match k with
  | Port => MODBUS_PORT env
  | Unit => MODBUS_SLAVE env
  | Baud => MODBUS_BAUDRATE env
  | Transport => MODBUS_TRANSPORT env
  | Connection => MODBUS_CONNECTION env
  | CanRate => MODBUS_CANRATE env
  | CanId => MODBUS_CANID env
  end.

Definition config_value (k : key) (c : config) : jsval :=
  match k with
  | Port => port_name c
  | Unit => master_defaultUnit c
  | Baud => port_options_baudRate c
  | Transport => master_transport_type c
  | Connection => master_transport_connection_type c
  | CanRate => can_rate c
  | CanId => can_myid c
  end.

(** An event that is no exit, or an exit with status 0 or 1. *)
Definition exits_0_or_1 (e : event) : Prop :=
  match e with
  | ProcessExit code => code = 0 \/ code = 1
  | _ => True
  end.

(** ** [convertOptionsToWinstonV3] (lines 933-953) *)







(** The number of commas in a string. *)
Fixpoint commas (s : string) : nat :=
  match s with
  | String c rest => ((if Ascii.eqb c "," then 1 else 0) + commas rest)%nat
  | EmptyString => 0%nat
  end.

(** The requests in a trace. *)
Definition is_call (e : event) : bool :=
  match e with
  | Call _ => true
  | _ => false
  end.

Definition calls (trace : list event) : list event := filter is_call trace.

(** The configurations masters were created with in a trace. *)
Fixpoint masters (trace : list event) : list config :=
  match trace with
  | CreateMaster c :: rest => c :: masters rest
  | _ :: rest => masters rest
  | [] => []
  end.

(* ================================================================== *)
(** * Inputs to run the script on *)
(* ================================================================== *)

(** A command line with the flags [--port], [--slave], [--save], [--out]
    and [--loop] as given and no other flag. *)
Definition command_line (port slave save out loop : jsval)
    (tokens : list token) : cli := {|
  args_default := JUndefined;
  args_port := port;
  args_slave := slave;
  args_baudrate := JUndefined;
  args_baud := JUndefined;
  args_baudRate := JUndefined;
  args_transport := JUndefined;
  args_connection := JUndefined;
  args_canrate := JUndefined;
  args_canid := JUndefined;
  args_save := save;
  args_l := JUndefined;
  args_h := JUndefined;
  args_show := JUndefined;
  args_out := out;
  args_loop := loop;
  args_length := JUndefined;
  args__ := tokens
|}.

(** A command line with positional tokens only. *)
Definition positional (tokens : list token) : cli :=
  command_line JUndefined JUndefined JUndefined JUndefined JUndefined tokens.

(** [mb --show]. *)
Definition show_only : cli := {|
  args_default := JUndefined;
  args_port := JUndefined;
  args_slave := JUndefined;
  args_baudrate := JUndefined;
  args_baud := JUndefined;
  args_baudRate := JUndefined;
  args_transport := JUndefined;
  args_connection := JUndefined;
  args_canrate := JUndefined;
  args_canid := JUndefined;
  args_save := JUndefined;
  args_l := JUndefined;
  args_h := JUndefined;
  args_show := JBool true;
  args_out := JUndefined;
  args_loop := JUndefined;
  args_length := JUndefined;
  args__ := []
|}.

(** [mb read slave --slave=0]. *)
Definition slave_zero : cli :=
  command_line JUndefined (JNum 0) JUndefined JUndefined JUndefined
    [TStr "read"; TStr "slave"].

(** [mb read slave --port=AA:BB:CC:DD:EE:FF --save]. *)
Definition save_mac : cli :=
  command_line (JStr "AA:BB:CC:DD:EE:FF") JUndefined (JBool true)
    JUndefined JUndefined [TStr "read"; TStr "slave"].

(** [mb read holding 0 3 --out=csv], and the same with [--loop]. *)
Definition read_csv : cli :=
  command_line JUndefined JUndefined JUndefined (JStr "csv") JUndefined
    [TStr "read"; TStr "holding"; TNum 0; TNum 3].

Definition read_csv_loop : cli :=
  command_line JUndefined JUndefined JUndefined (JStr "csv") (JBool true)
    [TStr "read"; TStr "holding"; TNum 0; TNum 3].

(** A Linux environment with [HOME] set and no [MODBUS_*] variable. *)
Definition bare_env : environment := {|
  platform := "linux";
  APPDATA := None;
  HOME := Some "/home/op";
  HOMEPATH := None;
  MODBUS_PORT := None;
  MODBUS_SLAVE := None;
  MODBUS_BAUDRATE := None;
  MODBUS_TRANSPORT := None;
  MODBUS_CONNECTION := None;
  MODBUS_CANRATE := None;
  MODBUS_CANID := None
|}.

(** The same with [MODBUS_SLAVE=5]. *)
Definition slave_5_env : environment := {|
  platform := "linux";
  APPDATA := None;
  HOME := Some "/home/op";
  HOMEPATH := None;
  MODBUS_PORT := None;
  MODBUS_SLAVE := Some "5";
  MODBUS_BAUDRATE := None;
  MODBUS_TRANSPORT := None;
  MODBUS_CONNECTION := None;
  MODBUS_CANRATE := None;
  MODBUS_CANID := None
|}.

(** A reply without error carrying the six octets of three registers,
    [ms] milliseconds on the clock. *)
Definition three_registers (ms : Z) : reply := {|
  reply_err := None;
  reply_buffer := [0; 10; 0; 20; 1; 44];
  reply_time := ms
|}.

(* ================================================================== *)
(** * Properties *)
(* ================================================================== *)

(** Settles [forall t, In t toks -> ~ finite_outside max t] for a list
    of tokens written out, by reading each token. *)
Ltac read_each_token :=
  let t := fresh "t" in
  let Hin := fresh "Hin" in
  let z := fresh "z" in
  let Hz := fresh "Hz" in
  let Hout := fresh "Hout" in
  intros t Hin (z & Hz & Hout);
  repeat (destruct Hin as [<- | Hin];
          [vm_compute in Hz; try discriminate Hz; injection Hz as <-; lia|]);
  destruct Hin.

(** ** Reading numbers *)

(** [x.substring(0,1)] has at most one character, so it is never ['0x']:
    the branch that parses with radix 16 is never taken. *)
Lemma substring_0_1_not_0x (s : string) :
  String.eqb (substring 0 1 s) "0x" = false.
Proof.
  destruct s as [|c s]; [reflexivity|].
  unfold substring; simpl.
  destruct s; simpl; destruct (Ascii.eqb c "0"); reflexivity.
Qed.

Lemma tokenNumber_parseInt (t : token) :
  tokenNumber (of_token t) = Some (parseInt (of_token t)).
Proof.
  destruct t; unfold tokenNumber; simpl of_token; cbv iota;
    rewrite substring_0_1_not_0x; reflexivity.
Qed.

Lemma parseNumber_token (t : token) (def : jsnum) :
  parseNumber (of_token t) def = Some (parseInt (of_token t)).
Proof.
  destruct t; unfold parseNumber; simpl of_token; cbv iota;
    apply (tokenNumber_parseInt (TNum _)) || apply (tokenNumber_parseInt (TStr _)).
Qed.

(** A string of radix-[radix] digits is read in full. *)
Lemma scan_all_digits (radix : Z) (s : string) :
  forall seen acc v,
    all_digits radix s seen acc = Some v ->
    scan_digits radix s seen acc = Some v.
Proof.
  induction s as [|c s IH]; intros seen acc v H; simpl in *; [exact H|].
  destruct (digit_in radix c); [apply IH; exact H | discriminate].
Qed.


(** The first character of a numeral is a digit: no white space, no
    sign. *)
Lemma digit_not_space_nor_sign (radix : Z) (c : ascii) (d : Z) :
  digit_in radix c = Some d ->
  is_space c = false /\ Ascii.eqb c "-" = false /\ Ascii.eqb c "+" = false.
Proof.
  unfold digit_in. destruct (digit_value c) eqn:E; [|discriminate].
  intros _. revert E.
  destruct c as [[] [] [] [] [] [] [] []]; vm_compute; intros E;
    try discriminate E; repeat split.
Qed.

Lemma decimal_digit_not_x (c : ascii) (d : Z) :
  digit_in 10 c = Some d ->
  Ascii.eqb c "x" = false /\ Ascii.eqb c "X" = false.
Proof.
  destruct c as [[] [] [] [] [] [] [] []]; vm_compute; intros E;
    try discriminate E; repeat split.
Qed.

Lemma parseInt_unsigned (s : string) (c : ascii) (d : Z) (rest : string) :
  s = String c rest ->
  digit_in 10 c = Some d ->
  parseInt_radix s None =
    let '(hex, digits) := strip_0x s in
    match scan_digits (if hex then 16 else 10) digits false 0 with
    | Some v => Num v
    | None => NaN
    end.
Proof.
  intros -> Hd. unfold parseInt_radix.
  destruct (digit_not_space_nor_sign _ _ _ Hd) as (Hs & Hm & Hp).
  simpl skip_space. rewrite Hs. simpl strip_sign. rewrite Hm, Hp.
  destruct (strip_0x (String c rest)) as [hex digits].
  destruct (scan_digits _ digits false 0) as [v|]; [|reflexivity].
  f_equal. lia.
Qed.

(** [0x] followed by hexadecimal digits reads as their value in base 16,
    whatever comes after the digits. *)
Lemma parseInt_hex_numeral (ds : string) (v : Z) :
  all_digits 16 ds false 0 = Some v ->
  parseInt (JStr ("0x" ++ ds)) = Num v.
Proof.
  intros H. unfold parseInt. simpl toString.
  rewrite (parseInt_unsigned _ "0" 0 ("x" ++ ds)) by reflexivity.
  simpl. rewrite (scan_all_digits _ _ _ _ _ H). reflexivity.
Qed.


Lemma decimal_no_0x (ds : string) (seen : bool) (acc v : Z) :
  all_digits 10 ds seen acc = Some v ->
  strip_0x ds = (false, ds).
Proof.
  destruct ds as [|a [|b r]]; try reflexivity.
  simpl. destruct (digit_in 10 a); [|discriminate].
  destruct (digit_in 10 b) eqn:Hb; [|discriminate].
  destruct (decimal_digit_not_x _ _ Hb) as [-> ->].
  intros _. rewrite Bool.andb_false_r. reflexivity.
Qed.

(** Decimal digits read as their value in base 10. *)
Lemma parseInt_dec_numeral (ds : string) (v : Z) :
  all_digits 10 ds false 0 = Some v ->
  parseInt (JStr ds) = Num v.
Proof.
  intros H. unfold parseInt. simpl toString.
  destruct ds as [|c r]; [discriminate|].
  assert (Hc : exists d, digit_in 10 c = Some d).
  { simpl in H. destruct (digit_in 10 c) as [d|]; [eauto|discriminate]. }
  destruct Hc as [d Hc].
  rewrite (parseInt_unsigned _ c d r eq_refl Hc).
  rewrite (decimal_no_0x _ _ _ _ H).
  rewrite (scan_all_digits _ _ _ _ _ H). reflexivity.
Qed.


(** ** Numbers print and read back *)

Lemma all_digits_of_uint_acc (u : Decimal.uint) :
  forall acc : positive,
    all_digits 10 (NilEmpty.string_of_uint u) true (Zpos acc)
    = Some (Zpos (Pos.of_uint_acc u acc)).
Proof.
  induction u; intros acc; [reflexivity| ..];
    cbn [NilEmpty.string_of_uint all_digits Pos.of_uint_acc];
    match goal with
    | |- context [digit_in 10 ?c] =>
        let r := eval vm_compute in (digit_in 10 c) in
        change (digit_in 10 c) with r; cbv iota
    end;
    rewrite <- IHu; f_equal; lia.
Qed.

Lemma all_digits_of_uint (u : Decimal.uint) :
  forall seen,
    all_digits 10 (NilEmpty.string_of_uint u) seen 0
    = match u with
      | Decimal.Nil => if seen then Some 0 else None
      | _ => Some (Z.of_N (Pos.of_uint u))
      end.
Proof.
  induction u; intros seen; [reflexivity| ..];
    cbn [NilEmpty.string_of_uint all_digits Pos.of_uint];
    match goal with
    | |- context [digit_in 10 ?c] =>
        let r := eval vm_compute in (digit_in 10 c) in
        change (digit_in 10 c) with r; cbv iota
    end.
  - change (0 * 10 + 0) with 0. rewrite IHu. destruct u; reflexivity.
  - apply (all_digits_of_uint_acc u 1).
  - apply (all_digits_of_uint_acc u 2).
  - apply (all_digits_of_uint_acc u 3).
  - apply (all_digits_of_uint_acc u 4).
  - apply (all_digits_of_uint_acc u 5).
  - apply (all_digits_of_uint_acc u 6).
  - apply (all_digits_of_uint_acc u 7).
  - apply (all_digits_of_uint_acc u 8).
  - apply (all_digits_of_uint_acc u 9).
Qed.

Lemma all_digits_of_positive (p : positive) :
  all_digits 10 (NilEmpty.string_of_uint (Pos.to_uint p)) false 0
  = Some (Zpos p).
Proof.
  rewrite all_digits_of_uint.
  rewrite DecimalPos.Unsigned.of_to.
  destruct (Pos.to_uint p) eqn:E; try reflexivity.
  exfalso. exact (DecimalPos.Unsigned.to_uint_nonnil p E).
Qed.

(** A number token reads as itself. *)
Lemma parseInt_number (z : Z) : parseInt (JNum z) = Num z.
Proof.
  destruct z as [|p|p].
  - reflexivity.
  - apply (parseInt_dec_numeral _ _ (all_digits_of_positive p)).
  - pose proof (parseInt_dec_numeral _ _ (all_digits_of_positive p)) as H.
    unfold parseInt, toString, string_of_Z in *. simpl Z.to_int.
    simpl NilEmpty.string_of_int.
    unfold parseInt_radix in *. simpl skip_space. simpl strip_sign.
    destruct (NilEmpty.string_of_uint (Pos.to_uint p)) as [|c r] eqn:E.
    + discriminate H.
    + pose proof (all_digits_of_positive p) as Hd. rewrite E in Hd.
      simpl in Hd. destruct (digit_in 10 c) as [d|] eqn:Hc; [|discriminate].
      destruct (digit_not_space_nor_sign _ _ _ Hc) as (Hs & Hm & Hp).
      simpl skip_space in H. rewrite Hs in H. simpl strip_sign in H.
      rewrite Hm, Hp in H.
      destruct (strip_0x (String c r)) as [hex digits].
      destruct (scan_digits _ digits false 0) as [v|]; [|discriminate].
      injection H as H. f_equal. destruct v; inversion H; reflexivity.
Qed.

(** ** The two parsers *)

(** The guard of lines 275 and 308 trips exactly on a number outside the
    range; [NaN] compares false both ways. *)
Lemma guard_trips (max : Z) (t : token) :
  num_lt (parseInt (of_token t)) 0 || num_gt (parseInt (of_token t)) max
    = true
  <-> finite_outside max t.
Proof.
  unfold finite_outside. destruct (parseInt (of_token t)) as [|z]; simpl.
  - split; [discriminate | intros (z & H & _); discriminate].
  - rewrite Bool.orb_true_iff, !Z.ltb_lt. split.
    + intros H. exists z. split; [reflexivity | exact H].
    + intros (z' & [= <-] & H). exact H.
Qed.

Lemma guard_passes (max : Z) (t : token) :
  num_lt (parseInt (of_token t)) 0 || num_gt (parseInt (of_token t)) max
    = false
  <-> ~ finite_outside max t.
Proof.
  rewrite <- guard_trips.
  destruct (num_lt _ 0 || num_gt _ max); split; intros H;
    try reflexivity; try discriminate; try (intros H'; discriminate).
  exfalso. apply H. reflexivity.
Qed.

Lemma NaN_not_finite_outside (max : Z) (t : token) :
  parseInt (of_token t) = NaN -> ~ finite_outside max t.
Proof. intros H (z & Hz & _). rewrite H in Hz. discriminate. Qed.

Lemma byteLoop_Fatal (rest : list token) :
  forall values m c,
    byteLoop rest values = Fatal m c ->
    c = 1 /\ exists t, In t rest /\ finite_outside 255 t.
Proof.
  induction rest as [|t rest IH]; intros values m c H; simpl in H.
  - discriminate.
  - rewrite tokenNumber_parseInt in H.
    destruct (num_lt _ 0 || num_gt _ 255) eqn:G.
    + injection H as _ <-. split; [reflexivity|].
      exists t. split; [left; reflexivity | apply guard_trips; exact G].
    + destruct (IH _ _ _ H) as (Hc & t' & Hin & Hout).
      split; [exact Hc|]. exists t'. split; [right; exact Hin | exact Hout].
Qed.

Lemma byteLoop_Done (rest : list token) :
  forall values,
    (forall t, In t rest -> ~ finite_outside 255 t) ->
    byteLoop rest values
    = Done (values ++ map (fun t => parseInt (of_token t)) rest)%list.
Proof.
  induction rest as [|t rest IH]; intros values H; simpl.
  - rewrite app_nil_r. reflexivity.
  - rewrite tokenNumber_parseInt.
    assert (G : ~ finite_outside 255 t) by (apply H; left; reflexivity).
    apply guard_passes in G. rewrite G.
    rewrite IH by (intros t' Ht'; apply H; right; exact Ht').
    rewrite <- app_assoc. reflexivity.
Qed.

Lemma byteLoop_trips (rest : list token) :
  forall values,
    (exists t, In t rest /\ finite_outside 255 t) ->
    exists m, byteLoop rest values = Fatal m 1.
Proof.
  induction rest as [|t rest IH]; intros values (t' & Hin & Hout).
  - destruct Hin.
  - simpl. rewrite tokenNumber_parseInt.
    destruct (num_lt _ 0 || num_gt _ 255) eqn:G; [eexists; reflexivity|].
    apply IH. destruct Hin as [<- | Hin].
    + apply guard_passes in G. contradiction.
    + exists t'. split; assumption.
Qed.

Lemma argsToByteBuf_Done (args : list token) (start : nat) :
  (forall t, In t (skipn start args) -> ~ finite_outside 255 t) ->
  argsToByteBuf args start = Done (map octet_of (skipn start args)).
Proof.
  intros H. unfold argsToByteBuf. rewrite (byteLoop_Done _ _ H).
  unfold Buffer_of_array. simpl. rewrite map_map. reflexivity.
Qed.

Lemma argsToByteBuf_Fatal (args : list token) (start : nat) (m : string)
    (c : Z) :
  argsToByteBuf args start = Fatal m c ->
  c = 1 /\ exists t, In t (skipn start args) /\ finite_outside 255 t.
Proof.
  unfold argsToByteBuf.
  destruct (byteLoop (skipn start args) []) eqn:E; try discriminate.
  intros [= -> ->]. exact (byteLoop_Fatal _ _ _ _ E).
Qed.

Section WordParser.

Variable nanpush : option (list Z).

Lemma wordLoop_Fatal (rest : list token) :
  forall data m c,
    wordLoop nanpush rest data = Fatal m c ->
    c = 1 /\ exists t, In t rest /\ finite_outside 65535 t.
Proof.
  induction rest as [|t rest IH]; intros data m c H; simpl in H.
  - discriminate.
  - rewrite tokenNumber_parseInt in H.
    destruct (num_lt _ 0 || num_gt _ 65535) eqn:G.
    + injection H as _ <-. split; [reflexivity|].
      exists t. split; [left; reflexivity | apply guard_trips; exact G].
    + destruct (pushUInt16 nanpush data _) as [data'|]; [|discriminate].
      destruct (IH _ _ _ H) as (Hc & t' & Hin & Hout).
      split; [exact Hc|]. exists t'. split; [right; exact Hin | exact Hout].
Qed.

(** A token that reads as [NaN] gets past the guard and is handed to the
    builder. *)
Lemma wordLoop_NaN (t : token) (rest : list token) (data : list Z) :
  parseInt (of_token t) = NaN ->
  wordLoop nanpush (t :: rest) data
  = match pushUInt16 nanpush data NaN with
    | Some data' => wordLoop nanpush rest data'
    | None => Thrown
    end.
Proof.
  intros H. simpl. rewrite tokenNumber_parseInt, H. reflexivity.
Qed.

Lemma wordLoop_Done (rest : list token) :
  forall data,
    (forall t, In t rest -> finite_within 65535 t) ->
    wordLoop nanpush rest data = Done (data ++ flat_map word_of rest)%list.
Proof.
  induction rest as [|t rest IH]; intros data H; simpl.
  - rewrite app_nil_r. reflexivity.
  - rewrite tokenNumber_parseInt.
    destruct (H t (or_introl eq_refl)) as (z & Hz & Hr).
    unfold word_of at 1. rewrite Hz. simpl.
    replace (z <? 0) with false by (symmetry; apply Z.ltb_ge; lia).
    replace (65535 <? z) with false by (symmetry; apply Z.ltb_ge; lia).
    simpl. rewrite IH by (intros t' Ht'; apply H; right; exact Ht').
    rewrite <- app_assoc. reflexivity.
Qed.

(** With a builder that appends [bs] for [NaN], the parser goes through
    every token list that has no number out of range. *)
Lemma wordLoop_appending (bs : list Z) (rest : list token) :
  nanpush = Some bs ->
  forall data,
    (forall t, In t rest -> ~ finite_outside 65535 t) ->
    wordLoop nanpush rest data
    = Done (data ++ flat_map (fun t =>
                match parseInt (of_token t) with
                | Num z => uint16BE z
                | NaN => bs
                end) rest)%list.
Proof.
  intros Hn.
  assert (HP : forall d, pushUInt16 nanpush d NaN = Some (d ++ bs)%list)
    by (intros d; unfold pushUInt16; rewrite Hn; reflexivity).
  induction rest as [|t rest IH]; intros data H; cbn [wordLoop flat_map].
  - rewrite app_nil_r. reflexivity.
  - rewrite tokenNumber_parseInt.
    assert (G : ~ finite_outside 65535 t) by (apply H; left; reflexivity).
    apply guard_passes in G. rewrite G.
    assert (IH' := fun d => IH d (fun t' Ht' => H t' (or_intror Ht'))).
    destruct (parseInt (of_token t)) as [|z].
    + rewrite HP, IH', <- app_assoc. reflexivity.
    + cbn [pushUInt16]. rewrite IH', <- app_assoc. reflexivity.
Qed.

Lemma length_flat_map_word_of (toks : list token) :
  (forall t, In t toks -> finite_within 65535 t) ->
  List.length (flat_map word_of toks) = (2 * List.length toks)%nat.
Proof.
  induction toks as [|t toks IH]; intros H; [reflexivity|].
  simpl flat_map. rewrite length_app, IH
    by (intros t' Ht'; apply H; right; exact Ht').
  destruct (H t (or_introl eq_refl)) as (z & Hz & _).
  unfold word_of. rewrite Hz. simpl. lia.
Qed.

End WordParser.

Lemma byteLoop_Done_inv (rest : list token) :
  forall values out,
    byteLoop rest values = Done out ->
    forall t, In t rest -> ~ finite_outside 255 t.
Proof.
  induction rest as [|t rest IH]; intros values out H t' Hin; simpl in *.
  - destruct Hin.
  - rewrite tokenNumber_parseInt in H.
    destruct (num_lt _ 0 || num_gt _ 255) eqn:G; [discriminate|].
    destruct Hin as [<- | Hin].
    + apply guard_passes. exact G.
    + exact (IH _ _ H _ Hin).
Qed.

(** The byte parser yields one octet per token, or none at all. *)
Lemma argsToByteBuf_one_per_token (args : list token) (start : nat)
    (buf : list Z) :
  argsToByteBuf args start = Done buf ->
  buf = map octet_of (skipn start args).
Proof.
  intros H. unfold argsToByteBuf in H.
  destruct (byteLoop (skipn start args) []) as [values| |] eqn:E;
    try discriminate.
  pose proof (argsToByteBuf_Done args start (byteLoop_Done_inv _ _ _ E)) as D.
  unfold argsToByteBuf in D. rewrite E in D. congruence.
Qed.

(** The byte parser has no path that raises. *)
Lemma argsToByteBuf_not_Thrown (args : list token) (start : nat) :
  argsToByteBuf args start <> Thrown.
Proof.
  unfold argsToByteBuf.
  assert (H : forall rest values, byteLoop rest values <> Thrown).
  { induction rest as [|t rest IH]; intros values; simpl; [discriminate|].
    rewrite tokenNumber_parseInt.
    destruct (num_lt _ 0 || num_gt _ 255); [discriminate | apply IH]. }
  specialize (H (skipn start args) []).
  destruct (byteLoop (skipn start args) []); congruence.
Qed.

(** ** [parseNumber] *)

(** C7.  [parseNumber] returns the default when the token is undefined;
    a token written [0x] followed by hexadecimal digits comes back as the
    value of the digits in base 16, a token written in decimal digits as
    their value in base 10, and a token minimist has already turned into
    a number as that number.  The values meant are those a JavaScript
    number holds exactly, up to 2^53 in magnitude: beyond them
    [parseInt] returns a rounded value and a number token is read from
    what remains of its digits in print.  In particular
    [parseNumber("0x1A", 0)] is 26, [parseNumber(undefined, 7)] is 7 and
    [parseNumber("42", 0)] is 42. *)
Theorem parseNumber_default_hex_decimal :
  (forall def, parseNumber JUndefined def = Some def) /\
  (forall ds v def,
      all_digits 16 ds false 0 = Some v ->
      safe_integer v ->
      parseNumber (JStr ("0x" ++ ds)) def = Some (Num v)) /\
  (forall ds v def,
      all_digits 10 ds false 0 = Some v ->
      safe_integer v ->
      parseNumber (JStr ds) def = Some (Num v)) /\
  (forall z def,
      safe_integer z ->
      parseNumber (JNum z) def = Some (Num z)) /\
  parseNumber (JStr "0x1A") (Num 0) = Some (Num 26) /\
  parseNumber JUndefined (Num 7) = Some (Num 7) /\
  parseNumber (JStr "42") (Num 0) = Some (Num 42).
Proof.
  repeat split.
  - intros ds v def H _.
    etransitivity; [exact (parseNumber_token (TStr ("0x" ++ ds)) def)|].
    f_equal. exact (parseInt_hex_numeral _ _ H).
  - intros ds v def H _.
    etransitivity; [exact (parseNumber_token (TStr ds) def)|].
    f_equal. exact (parseInt_dec_numeral _ _ H).
  - intros z def _.
    etransitivity; [exact (parseNumber_token (TNum z) def)|].
    f_equal. exact (parseInt_number z).
Qed.

(** [parseNumber("0x1A", 0)], [parseNumber("1024", 1)] and
    [parseNumber(-5, 0)]. *)
Lemma parseNumber_default_hex_decimal_witness :
  (all_digits 16 "1A" false 0 = Some 26 /\
   parseNumber (JStr "0x1A") (Num 0) = Some (Num 26)) /\
  (all_digits 10 "1024" false 0 = Some 1024 /\
   parseNumber (JStr "1024") (Num 1) = Some (Num 1024)) /\
  parseNumber (JNum (-5)) (Num 0) = Some (Num (-5)).
Proof.
  assert (S26 : safe_integer 26) by (unfold safe_integer; lia).
  assert (S1024 : safe_integer 1024) by (unfold safe_integer; lia).
  assert (S5 : safe_integer (-5)) by (unfold safe_integer; lia).
  split; [split | split; [split|]].
  - reflexivity.
  - exact (proj1 (proj2 parseNumber_default_hex_decimal)
             "1A" 26 (Num 0) eq_refl S26).
  - reflexivity.
  - exact (proj1 (proj2 (proj2 parseNumber_default_hex_decimal))
             "1024" 1024 (Num 1) eq_refl S1024).
  - exact (proj1 (proj2 (proj2 (proj2 parseNumber_default_hex_decimal)))
             (-5) (Num 0) S5).
Defined.

(** ** Byte runs *)

Lemma colon_not_a_digit (radix : Z) :
  2 <= radix <= 36 -> digit_in radix ":" = None.
Proof. intros _. reflexivity. Qed.





(** ** The dispatcher, case by case *)

Section Dispatcher.

Variable nanpush : option (list Z).

Lemma doAction_write_memory (args : cli) (addr : token) (toks : list token) :
  args__ args = TStr "write" :: TStr "memory" :: addr :: toks ->
  doAction nanpush args
  = match argsToByteBuf toks 0 with
    | Fatal m c => Fatal m c
    | Thrown => Thrown
    | Done values => Done (writeMemory (parseInt (of_token addr)) values)
    end.
Proof.
  intros H. unfold doAction. rewrite H.
  change (elem (TStr "write" :: TStr "memory" :: addr :: toks) 2)
    with (of_token addr).
  cbv beta zeta.
  change (same (elem (TStr "write" :: TStr "memory" :: addr :: toks) 0) "read")
    with false.
  change (same (elem (TStr "write" :: TStr "memory" :: addr :: toks) 0) "write")
    with true.
  change (jor (elem (TStr "write" :: TStr "memory" :: addr :: toks) 1)
              (JStr "unknown")) with (JStr "memory").
  change (same (JStr "memory") "coil") with false.
  change (same (JStr "memory") "holding") with false.
  change (same (JStr "memory") "fifo") with false.
  change (same (JStr "memory") "memory") with true.
  cbv iota. rewrite parseNumber_token. reflexivity.
Qed.

Lemma doAction_write_holding (args : cli) (addr : token) (toks : list token) :
  args__ args = TStr "write" :: TStr "holding" :: addr :: toks ->
  doAction nanpush args
  = match argsToWordBuf nanpush toks 0 with
    | Fatal m c => Fatal m c
    | Thrown => Thrown
    | Done values =>
        if Z.of_nat (List.length values) <? 2
        then Fatal "No values specified " 1
        else Done (writeMultipleRegisters (jor (of_token addr) (JNum 0))
                                          values)
    end.
Proof.
  intros H. unfold doAction. rewrite H. reflexivity.
Qed.

Lemma doAction_command (args : cli) (id : token) (toks : list token) :
  args__ args = TStr "command" :: id :: toks ->
  less_than_2 (args_length args) = false ->
  doAction nanpush args
  = match argsToByteBuf toks 0 with
    | Fatal m c => Fatal m c
    | Thrown => Thrown
    | Done buf => Done (command (of_token id) buf)
    end.
Proof.
  intros H L. unfold doAction. rewrite H, L. reflexivity.
Qed.

End Dispatcher.

(** A string that does not start with white space, a sign or a digit has
    no number in it. *)
Lemma parseInt_non_numeric (c : ascii) (rest : string) :
  is_space c = false ->
  Ascii.eqb c "-" || Ascii.eqb c "+" = false ->
  digit_in 10 c = None ->
  parseInt (JStr (String c rest)) = NaN.
Proof.
  intros Hs Hg Hd. apply Bool.orb_false_iff in Hg. destruct Hg as [Hm Hp].
  unfold parseInt, parseInt_radix. cbn [toString skip_space].
  rewrite Hs. cbn [strip_sign]. rewrite Hm, Hp.
  assert (H0 : Ascii.eqb c "0" = false).
  { destruct (Ascii.eqb c "0") eqn:E; [|reflexivity].
    apply Ascii.eqb_eq in E. subst c. discriminate Hd. }
  assert (Hx : strip_0x (String c rest) = (false, String c rest)).
  { destruct rest; cbn [strip_0x]; [reflexivity|]. rewrite H0. reflexivity. }
  rewrite Hx. cbn [scan_digits]. rewrite Hd. reflexivity.
Qed.

(** ** [write holding] *)

(** C3, as the code has it.  [values.length] counts octets, two per
    word, so [values.length < 2] holds for the empty buffer only:
    [write holding] is turned down with "No values specified" and
    [exit(1)] when no value token follows the address, and with one or
    more value tokens that read as numbers in [0, 65535] it calls
    [writeMultipleRegisters] with their words. *)
Theorem write_holding_needs_one_value (nanpush : option (list Z)) :
  (forall args,
      args__ args = [TStr "write"; TStr "holding"] ->
      doAction nanpush args = Fatal "No values specified " 1) /\
  (forall args addr,
      args__ args = [TStr "write"; TStr "holding"; addr] ->
      doAction nanpush args = Fatal "No values specified " 1) /\
  (forall args addr t toks,
      args__ args = TStr "write" :: TStr "holding" :: addr :: t :: toks ->
      (forall x, In x (t :: toks) -> finite_within 65535 x) ->
      doAction nanpush args
      = Done (writeMultipleRegisters (jor (of_token addr) (JNum 0))
                                     (flat_map word_of (t :: toks)))).
Proof.
  split; [|split].
  - intros args H. unfold doAction. rewrite H. reflexivity.
  - intros args addr H.
    rewrite (doAction_write_holding nanpush args addr [] H). reflexivity.
  - intros args addr t toks H Hok.
    rewrite (doAction_write_holding nanpush args addr (t :: toks) H).
    unfold argsToWordBuf. cbn [skipn].
    rewrite (wordLoop_Done nanpush (t :: toks) [] Hok). cbn [app].
    rewrite (length_flat_map_word_of _ Hok). cbn [List.length].
    replace (Z.of_nat (2 * S (List.length toks)) <? 2) with false
      by (symmetry; apply Z.ltb_ge; lia).
    reflexivity.
Qed.

(** [mb write holding 0 0x100]: one word, written. *)
Lemma write_holding_needs_one_value_witness :
  doAction None
    (positional [TStr "write"; TStr "holding"; TNum 0; TStr "0x100"])
  = Done (writeMultipleRegisters (JNum 0) [1; 0]).
Proof.
  apply (proj2 (proj2 (write_holding_needs_one_value None))
           (positional [TStr "write"; TStr "holding"; TNum 0; TStr "0x100"])
           (TNum 0) (TStr "0x100") [] eq_refl).
  intros x [<- | []]. exists 256. split; [reflexivity | lia].
Defined.

(** C3 as stated fails: the single word [["0x100"]], or 256 once
    minimist has read it, is not turned down; it is written. *)
Lemma write_holding_accepts_single_word :
  doAction None
    (positional [TStr "write"; TStr "holding"; TNum 0; TStr "0x100"])
  = Done (writeMultipleRegisters (JNum 0) [1; 0]) /\
  doAction None
    (positional [TStr "write"; TStr "holding"; TNum 0; TNum 256])
  = Done (writeMultipleRegisters (JNum 0) [1; 0]) /\
  doAction (Some [0; 0])
    (positional [TStr "write"; TStr "holding"; TNum 0; TNum 256])
  = Done (writeMultipleRegisters (JNum 0) [1; 0]).
Proof. repeat split. Qed.

(** ** [write object] *)

(** C5, on the code.  The [object] case of the write switch is commented
    out (lines 500-503): [write object] falls to the default case, which
    prints "Trying to write unknown item object" and exits with 1; no
    request reaches the master. *)
Theorem write_object_is_unknown (nanpush : option (list Z))
    (rest : list token) :
  doAction nanpush (positional (TStr "write" :: TStr "object" :: rest))
  = Fatal "Trying to write unknown item object" 1.
Proof. reflexivity. Qed.

(** ** The action set *)

Lemma same_iff (v : jsval) (s : string) : same v s = true <-> v = JStr s.
Proof.
  unfold same. destruct v; simpl; try (split; [discriminate | intros [=]]).
  rewrite String.eqb_eq. split; [intros ->; reflexivity | intros [= ->]; reflexivity].
Qed.

(** C4, as the code has it.  The actions the script accepts are [read],
    [write] and [command], and no other; [generic] is not one of them.
    With [generic] as action the script prints "Unknown Action generic
    Requested" and exits with 1 before any connection is made, and
    [doAction] itself answers "Unknown action: generic" with [exit(1)]:
    no request is sent. *)
Theorem generic_is_not_an_action (nanpush : option (list Z)) :
  (forall action,
      unknownAction action = false
      <-> action = JStr "read" \/ action = JStr "write"
          \/ action = JStr "command") /\
  (forall args,
      elem (args__ args) 0 = JStr "generic" ->
      doAction nanpush args = Fatal "Unknown action: generic" 1) /\
  (forall args c w,
      truthy (args_l args) = false ->
      truthy (args_show args) = false ->
      elem (args__ args) 0 = JStr "generic" ->
      run nanpush args c w
      = [Stderr "Unknown Action generic Requested"; ProcessExit 1]).
Proof.
  split; [|split].
  - intros action. unfold unknownAction.
    rewrite Bool.negb_false_iff, !Bool.orb_true_iff, !same_iff. tauto.
  - intros args H. unfold doAction. rewrite H. reflexivity.
  - intros args c w Hl Hs H. unfold run. rewrite Hl, Hs, H. reflexivity.
Qed.

(** [mb generic 0x42 1 2] on a link that would come up. *)
Lemma generic_is_not_an_action_witness :
  run None (positional [TStr "generic"; TNum 66; TNum 1; TNum 2])
      CONFIG_DEFAULTS (LinkUp 0 [])
  = [Stderr "Unknown Action generic Requested"; ProcessExit 1] /\
  doAction None (positional [TStr "generic"; TNum 66; TNum 1; TNum 2])
  = Fatal "Unknown action: generic" 1.
Proof.
  split.
  - exact (proj2 (proj2 (generic_is_not_an_action None))
             (positional [TStr "generic"; TNum 66; TNum 1; TNum 2])
             CONFIG_DEFAULTS (LinkUp 0 []) eq_refl eq_refl eq_refl).
  - exact (proj1 (proj2 (generic_is_not_an_action None))
             (positional [TStr "generic"; TNum 66; TNum 1; TNum 2]) eq_refl).
Defined.

(** C4 as stated fails: the whole script, run on [generic 0x42 1 2] with
    a master that connects and would answer, sends nothing and exits
    with 1. *)
Lemma generic_action_is_rejected :
  main None (positional [TStr "generic"; TNum 66; TNum 1; TNum 2])
       bare_env FileAbsent true
       (LinkUp 0 [{| reply_err := None; reply_buffer := []; reply_time := 5 |}])
  = [Stderr "Unknown Action generic Requested"; ProcessExit 1] /\
  unknownAction (JStr "generic") = true.
Proof. split; reflexivity. Qed.

(** ** The override chain *)

Lemma jor_truthy (a b : jsval) : truthy a = true -> jor a b = a.
Proof. intros H. unfold jor. rewrite H. reflexivity. Qed.

Lemma jor_falsy (a b : jsval) : truthy a = false -> jor a b = b.
Proof. intros H. unfold jor. rewrite H. reflexivity. Qed.

(** C1, as the code has it.  The chain is written with [||], which
    passes over a value that is falsy.  For each key, a command-line
    value that is truthy (a number other than 0, a string other than the
    empty one, [true]) is the resolved value, whatever the environment,
    the defaults file and the built-in defaults hold; of the three
    spellings of the baud rate the first truthy one among [--baudrate],
    [--baud], [--baudRate] is taken. *)
Theorem truthy_cli_value_wins (args : cli) (env : environment)
    (f : config_file) :
  (truthy (args_port args) = true ->
   port_name (resolved args env f) = args_port args) /\
  (truthy (args_slave args) = true ->
   master_defaultUnit (resolved args env f) = args_slave args) /\
  (truthy (args_baudrate args) = true ->
   port_options_baudRate (resolved args env f) = args_baudrate args) /\
  (truthy (args_baudrate args) = false ->
   truthy (args_baud args) = true ->
   port_options_baudRate (resolved args env f) = args_baud args) /\
  (truthy (args_baudrate args) = false ->
   truthy (args_baud args) = false ->
   truthy (args_baudRate args) = true ->
   port_options_baudRate (resolved args env f) = args_baudRate args) /\
  (truthy (args_transport args) = true ->
   master_transport_type (resolved args env f) = args_transport args) /\
  (truthy (args_connection args) = true ->
   master_transport_connection_type (resolved args env f)
   = args_connection args) /\
  (truthy (args_canrate args) = true ->
   can_rate (resolved args env f) = args_canrate args) /\
  (truthy (args_canid args) = true ->
   can_myid (resolved args env f) = args_canid args).
Proof.
  unfold resolved, overrides; cbn [port_name master_defaultUnit
    port_options_baudRate master_transport_type
    master_transport_connection_type can_rate can_myid].
  repeat split; intros;
    repeat match goal with
           | H : truthy ?a = true |- context [jor ?a ?b] =>
               rewrite (jor_truthy a b H)
           | H : truthy ?a = false |- context [jor ?a ?b] =>
               rewrite (jor_falsy a b H)
           end; reflexivity.
Qed.

(** [--slave=12] against [MODBUS_SLAVE=5] and no defaults file. *)
Lemma truthy_cli_value_wins_witness :
  truthy (JNum 12) = true /\
  master_defaultUnit
    (resolved (command_line JUndefined (JNum 12) JUndefined JUndefined
                            JUndefined [TStr "read"; TStr "slave"])
              slave_5_env FileAbsent)
  = JNum 12.
Proof.
  split; [reflexivity|].
  exact (proj1 (proj2 (truthy_cli_value_wins
           (command_line JUndefined (JNum 12) JUndefined JUndefined
                         JUndefined [TStr "read"; TStr "slave"])
           slave_5_env FileAbsent)) eq_refl).
Defined.

(** C1 as stated fails: [--slave=0] is given on the command line, yet
    the unit resolves to the environment's ["5"], and without the
    variable to the built-in 1. *)
Lemma cli_zero_does_not_win :
  args_slave slave_zero = JNum 0 /\
  master_defaultUnit (resolved slave_zero slave_5_env FileAbsent) = JStr "5" /\
  master_defaultUnit (resolved slave_zero bare_env FileAbsent) = JNum 1.
Proof. repeat split. Qed.

(** ** Loading and saving the defaults *)

(** C8.  A defaults file that is missing and one that does not parse
    both leave the script with the built-in defaults: the resolved
    configuration and the whole run are the same in the two cases, and
    with [--show] alone the run prints the configuration and ends
    without [exit] or exception. *)
Theorem unreadable_defaults_fall_back (nanpush : option (list Z))
    (args : cli) (env : environment) (fs_ok : bool) (w : link) :
  loadConfig args FileAbsent = CONFIG_DEFAULTS /\
  loadConfig args FileCorrupt = CONFIG_DEFAULTS /\
  resolved args env FileCorrupt = overrides args env CONFIG_DEFAULTS /\
  resolved args env FileCorrupt = resolved args env FileAbsent /\
  main nanpush args env FileCorrupt fs_ok w
  = main nanpush args env FileAbsent fs_ok w /\
  (truthy (args_save args) = false ->
   truthy (args_h args) = false ->
   truthy (args_l args) = false ->
   truthy (args_show args) = true ->
   main nanpush args env FileCorrupt fs_ok w
   = [Show (macRewrite args (overrides args env CONFIG_DEFAULTS))] /\
   exit_status (main nanpush args env FileCorrupt fs_ok w) = None).
Proof.
  assert (La : loadConfig args FileAbsent = CONFIG_DEFAULTS)
    by (unfold loadConfig; destruct (truthy (args_default args)); reflexivity).
  assert (Lc : loadConfig args FileCorrupt = CONFIG_DEFAULTS)
    by (unfold loadConfig; destruct (truthy (args_default args)); reflexivity).
  assert (R : resolved args env FileCorrupt = overrides args env CONFIG_DEFAULTS)
    by (unfold resolved; rewrite Lc; reflexivity).
  assert (R' : resolved args env FileAbsent = overrides args env CONFIG_DEFAULTS)
    by (unfold resolved; rewrite La; reflexivity).
  assert (M : main nanpush args env FileCorrupt fs_ok w
              = main nanpush args env FileAbsent fs_ok w)
    by (unfold main; rewrite R, R'; reflexivity).
  split; [exact La|]. split; [exact Lc|]. split; [exact R|].
  split; [rewrite R, R'; reflexivity|]. split; [exact M|].
  intros Hsave Hh Hl Hshow.
  assert (E : main nanpush args env FileCorrupt fs_ok w
              = [Show (macRewrite args (overrides args env CONFIG_DEFAULTS))])
    by (unfold main, after_setup, run;
        rewrite R, Hsave, Hh, Hl, Hshow; reflexivity).
  split; [exact E | rewrite E; reflexivity].
Qed.

(** [mb --show] with a defaults file that does not parse. *)
Lemma unreadable_defaults_fall_back_witness :
  main None show_only bare_env FileCorrupt true LinkSilent
  = [Show {| port_name := JStr "use_--port_to_select_port";
             port_options_baudRate := JNum 115200;
             port_options_autoOpen := JBool false;
             can_rate := JNum 250000;
             can_myid := JNum 254;
             master_transport_type := JStr "rtu";
             master_transport_connection_type := JStr "serial";
             master_defaultUnit := JNum 1 |}].
Proof.
  exact (proj1 (proj2 (proj2 (proj2 (proj2 (proj2
           (unreadable_defaults_fall_back None show_only bare_env true
              LinkSilent)))))
           eq_refl eq_refl eq_refl eq_refl)).
Defined.

(** C6, as the code has it.  With [--save] the script announces the
    write and hands [writeFileSync] the configuration as the override
    chain left it, before the MAC-address rewrite of line 162 and before
    anything else: the help text, the listing, the connection and the
    dispatch all come after.  When the write fails the exception is not
    caught: the run ends there, with a non-zero status. *)
Theorem save_writes_the_resolved_configuration (nanpush : option (list Z))
    (args : cli) (env : environment) (f : config_file) (w : link) :
  truthy (args_save args) = true ->
  main nanpush args env f true w
  = Stdout ("Writing configuration file: " ++ CR ++ CONFIG_FILE env ++ CR)
    :: WriteFile (CONFIG_FILE env) (resolved args env f)
    :: after_setup nanpush args (effective args env f) w /\
  main nanpush args env f false w
  = [Stdout ("Writing configuration file: " ++ CR ++ CONFIG_FILE env ++ CR);
     UncaughtException] /\
  exit_status (main nanpush args env f false w) = Some 1.
Proof.
  intros H. unfold main, effective. rewrite H. repeat split.
Qed.

(** [mb read slave --port=AA:BB:CC:DD:EE:FF --save]. *)
Lemma save_writes_the_resolved_configuration_witness :
  truthy (args_save save_mac) = true /\
  exit_status (main None save_mac bare_env FileAbsent false LinkSilent)
  = Some 1.
Proof.
  split; [reflexivity|].
  exact (proj2 (proj2 (save_writes_the_resolved_configuration
                         None save_mac bare_env FileAbsent LinkSilent
                         eq_refl))).
Defined.

(** C6 as stated fails: the port is a MAC address and the master is
    created for [generic]/[ip] after the rewrite to [ble]/[ip], but the
    file gets [serial]/[rtu]. *)
Lemma saved_configuration_lacks_the_rewrite :
  main None save_mac bare_env FileAbsent true (LinkUp 0 [])
  = [Stdout ("Writing configuration file: " ++ CR
               ++ "/home/op/.cs-mb-cli.json" ++ CR);
     WriteFile "/home/op/.cs-mb-cli.json"
       (resolved save_mac bare_env FileAbsent);
     CreateMaster
       (with_transport
          (with_connection (effective save_mac bare_env FileAbsent) "generic")
          "ip");
     Stdout "MASTER - connected";
     Call reportSlaveId] /\
  master_transport_connection_type (resolved save_mac bare_env FileAbsent)
  = JStr "serial" /\
  master_transport_type (resolved save_mac bare_env FileAbsent) = JStr "rtu" /\
  master_transport_connection_type (effective save_mac bare_env FileAbsent)
  = JStr "ble" /\
  master_transport_type (effective save_mac bare_env FileAbsent) = JStr "ip".
Proof. repeat split. Qed.

(** ** The completion callback *)

Lemma strict_eq_str (s : string) (v : jsval) :
  strict_eq (JStr s) v = true <-> v = JStr s.
Proof.
  destruct v; simpl; try (split; [discriminate | intros [=]]).
  rewrite String.eqb_eq.
  split; [intros ->; reflexivity | intros [= ->]; reflexivity].
Qed.

(** C9.  [output(err, response)]: with an error it prints nothing and
    calls [exit(1)].  Without one, when [--out] is [csv] it prints one
    line, the milliseconds elapsed since [startTime] followed by the
    octets of the response, all joined by commas, and otherwise no line;
    then it calls [exit(0)] unless [--loop] is set, in which case it
    schedules [doAction] again.  [exit(code)] ends the process with
    status [code]; [startTime] is the clock at the [connected]
    notification, and a scheduled [doAction] is the next dispatch. *)
Theorem output_contract (nanpush : option (list Z)) (args : cli)
    (startTime now : Z) (response : list Z) :
  (forall e,
      output args startTime now (Some e) response = ([], Terminate 1)) /\
  (args_out args = JStr "csv" ->
   fst (output args startTime now None response)
   = [string_of_Z (now - startTime) ++ ","
        ++ String.concat "," (map string_of_Z response)]) /\
  (args_out args <> JStr "csv" ->
   fst (output args startTime now None response) = []) /\
  (truthy (args_loop args) = false ->
   snd (output args startTime now None response) = Terminate 0) /\
  (truthy (args_loop args) = true ->
   snd (output args startTime now None response) = Again) /\
  (forall master_created code,
      exit_status (exit master_created code) = Some code) /\
  (forall replies,
      connected nanpush args (LinkUp startTime replies)
      = Stdout "MASTER - connected"
          :: dispatch nanpush args startTime replies) /\
  (forall m r rest,
      doAction nanpush args = Done m ->
      dispatch nanpush args startTime (r :: rest)
      = Call m ::
        (map Stdout
           (fst (output args startTime (reply_time r) (reply_err r)
                        (reply_buffer r)))
         ++ match snd (output args startTime (reply_time r) (reply_err r)
                              (reply_buffer r)) with
            | Terminate code => exit true code
            | Again => dispatch nanpush args startTime rest
            end)%list).
Proof.
  split; [reflexivity|].
  split.
  { intros H. unfold output. rewrite H. reflexivity. }
  split.
  { intros H. unfold output.
    destruct (strict_eq (JStr "csv") (args_out args)) eqn:E; [|reflexivity].
    apply strict_eq_str in E. contradiction. }
  split.
  { intros H. unfold output. rewrite H. reflexivity. }
  split.
  { intros H. unfold output. rewrite H. reflexivity. }
  split; [intros [] code; reflexivity|].
  split; [reflexivity|].
  intros m r rest H. cbn [dispatch]. rewrite H.
  destruct (output args startTime (reply_time r) (reply_err r)
                   (reply_buffer r)) as [printed next].
  reflexivity.
Qed.

(** [mb read holding 0 3 --out=csv]: connected at 100 ms, answered at
    137 ms with three registers. *)
Lemma output_contract_witness :
  args_out read_csv = JStr "csv" /\
  fst (output read_csv 100 137 None [0; 10; 0; 20; 1; 44])
  = ["37,0,10,0,20,1,44"] /\
  truthy (args_loop read_csv) = false /\
  snd (output read_csv 100 137 None [0; 10; 0; 20; 1; 44]) = Terminate 0 /\
  truthy (args_loop read_csv_loop) = true /\
  snd (output read_csv_loop 100 137 None [0; 10; 0; 20; 1; 44]) = Again.
Proof.
  pose proof (output_contract None read_csv 100 137 [0; 10; 0; 20; 1; 44])
    as (_ & Hcsv & _ & Hexit & _).
  pose proof (output_contract None read_csv_loop 100 137
                [0; 10; 0; 20; 1; 44]) as (_ & _ & _ & _ & Hloop & _).
  split; [reflexivity|]. split; [exact (Hcsv eq_refl)|].
  split; [reflexivity|]. split; [exact (Hexit eq_refl)|].
  split; [reflexivity|]. exact (Hloop eq_refl).
Defined.

(** ** Runs from end to end *)

(** [read holding 0 3 --out=csv] prints one line and exits with 0. *)
Example read_holding_csv_run :
  main None read_csv bare_env FileAbsent true
       (LinkUp 100 [three_registers 137])
  = [CreateMaster (effective read_csv bare_env FileAbsent);
     Open (effective read_csv bare_env FileAbsent);
     Stdout "MASTER - connected";
     Call (readHoldingRegisters (JNum 0) (JNum 3));
     Stdout "37,0,10,0,20,1,44";
     DestroyMaster;
     ProcessExit 0].
Proof. reflexivity. Qed.

(** Under [--loop] three replies give three requests one after the
    other, a fourth is sent and awaits its reply. *)
Example read_holding_loop_run :
  main None read_csv_loop bare_env FileAbsent true
       (LinkUp 100 [three_registers 137; three_registers 150;
                    three_registers 161])
  = [CreateMaster (effective read_csv_loop bare_env FileAbsent);
     Open (effective read_csv_loop bare_env FileAbsent);
     Stdout "MASTER - connected";
     Call (readHoldingRegisters (JNum 0) (JNum 3));
     Stdout "37,0,10,0,20,1,44";
     Call (readHoldingRegisters (JNum 0) (JNum 3));
     Stdout "50,0,10,0,20,1,44";
     Call (readHoldingRegisters (JNum 0) (JNum 3));
     Stdout "61,0,10,0,20,1,44";
     Call (readHoldingRegisters (JNum 0) (JNum 3))].
Proof. reflexivity. Qed.

(** [write memory 0x400 0x55 0xAA], as minimist hands it over. *)
Example write_memory_run :
  doAction None
    (positional [TStr "write"; TStr "memory"; TNum 1024; TNum 85; TNum 170])
  = Done (writeMemory (Num 1024) [85; 170]).
Proof. reflexivity. Qed.

(** A reply with an error ends the run with status 1. *)
Example failed_request_run :
  exit_status
    (main None read_csv_loop bare_env FileAbsent true
       (LinkUp 100 [{| reply_err := Some "timeout"; reply_buffer := [];
                       reply_time := 2100 |}]))
  = Some 1.
Proof. reflexivity. Qed.

(** The MAC-address pattern of line 160. *)
Example macRE_examples :
  macRE_test (JStr "AA:BB:CC:DD:EE:FF") = true /\
  macRE_test (JStr "aa-bb-cc-dd-ee-0f") = true /\
  macRE_test (JStr "AA:BB:CC:DD:EE") = false /\
  macRE_test (JStr "AA:BB:CC:DD:EE:FF:") = false /\
  macRE_test (JStr "/dev/ttyUSB0") = false /\
  macRE_test (JStr "AA:BB:CC:DD:EE:GG") = false.
Proof. repeat split. Qed.

(* ================================================================== *)
(** * Further properties *)
(* ================================================================== *)

(** ** The parsers on well-formed and on empty input *)

Lemma number_token_within (max z : Z) :
  0 <= z <= max -> ~ finite_outside max (TNum z).
Proof.
  intros H (z' & Hz & Hout). simpl of_token in Hz.
  rewrite parseInt_number in Hz. injection Hz as <-. lia.
Qed.

Lemma skipn_length_app {A : Type} (pre l : list A) :
  skipn (List.length pre) (pre ++ l) = l.
Proof. induction pre as [|a pre IH]; [reflexivity | exact IH]. Qed.

(** X1.  Number tokens come back as they went in: when the tokens from
    [start] on are numbers between 0 and 255, [argsToByteBuf] returns
    exactly these numbers, in order. *)
Theorem argsToByteBuf_numbers (pre : list token) (zs : list Z) :
  Forall (fun z => 0 <= z <= 255) zs ->
  argsToByteBuf (pre ++ map TNum zs) (List.length pre) = Done zs.
Proof.
  intros H. rewrite argsToByteBuf_Done; rewrite skipn_length_app.
  - f_equal. rewrite map_map.
    induction H as [|z zs Hz _ IH]; [reflexivity|].
    cbn [map]. rewrite IH. f_equal.
    unfold octet_of. cbn [of_token]. rewrite parseInt_number.
    apply Z.mod_small. lia.
  - intros t Hin. apply in_map_iff in Hin. destruct Hin as (z & <- & Hz).
    apply number_token_within. rewrite Forall_forall in H. exact (H z Hz).
Qed.

(** [mb write memory 0x400 0x55 0xAA], read from index 3. *)
Lemma argsToByteBuf_numbers_witness :
  argsToByteBuf [TStr "write"; TStr "memory"; TNum 1024; TNum 85; TNum 170] 3
  = Done [85; 170].
Proof.
  apply (argsToByteBuf_numbers
           [TStr "write"; TStr "memory"; TNum 1024] [85; 170]).
  repeat constructor; lia.
Defined.

(** X2.  Whatever the tokens, a buffer [argsToByteBuf] returns has one
    octet for each token from [start] on, and every octet lies between 0
    and 255. *)
Theorem argsToByteBuf_buffer_shape (args : list token) (start : nat)
    (buf : list Z) :
  argsToByteBuf args start = Done buf ->
  List.length buf = (List.length args - start)%nat /\
  Forall (fun b => 0 <= b <= 255) buf.
Proof.
  intros H. apply argsToByteBuf_one_per_token in H. subst buf.
  split.
  - rewrite length_map, length_skipn. reflexivity.
  - apply Forall_forall. intros b Hb. apply in_map_iff in Hb.
    destruct Hb as (t & <- & _). unfold octet_of, toUint8.
    destruct (parseInt (of_token t)) as [|z]; [lia|].
    pose proof (Z.mod_pos_bound z 256). lia.
Qed.

Lemma argsToByteBuf_buffer_shape_witness :
  argsToByteBuf [TStr "command"; TNum 7; TStr "zz"; TStr "0x10"; TNum 9] 2
  = Done [0; 16; 9] /\
  List.length [0; 16; 9] = 3%nat /\
  Forall (fun b => 0 <= b <= 255) [0; 16; 9].
Proof.
  split; [reflexivity|].
  exact (argsToByteBuf_buffer_shape
           [TStr "command"; TNum 7; TStr "zz"; TStr "0x10"; TNum 9] 2
           [0; 16; 9] eq_refl).
Defined.

Lemma number_token_finite_within (max z : Z) :
  0 <= z <= max -> finite_within max (TNum z).
Proof.
  intros H. exists z. split; [apply parseInt_number | exact H].
Qed.

Lemma uint16BE_decodes (z : Z) (rest : list Z) :
  0 <= z <= 65535 ->
  decodeUInt16BE (uint16BE z ++ rest) = z :: decodeUInt16BE rest.
Proof.
  intros H. unfold uint16BE. cbn [app decodeUInt16BE]. f_equal.
  rewrite (Z.mod_small (z / 256) 256)
    by (split; [apply Z.div_pos; lia | apply Z.div_lt_upper_bound; lia]).
  pose proof (Z.div_mod z 256). lia.
Qed.

(** X3.  Words survive the word buffer: when the tokens from [start] on
    are numbers between 0 and 65535, [argsToWordBuf] returns two octets
    per word, high octet first, every octet between 0 and 255, and
    reading the buffer back sixteen bits at a time gives the numbers
    again.  The builder's treatment of [NaN] plays no part. *)
Theorem argsToWordBuf_numbers (nanpush : option (list Z))
    (pre : list token) (zs : list Z) :
  Forall (fun z => 0 <= z <= 65535) zs ->
  argsToWordBuf nanpush (pre ++ map TNum zs) (List.length pre)
  = Done (flat_map uint16BE zs) /\
  decodeUInt16BE (flat_map uint16BE zs) = zs /\
  List.length (flat_map uint16BE zs) = (2 * List.length zs)%nat /\
  Forall (fun b => 0 <= b <= 255) (flat_map uint16BE zs).
Proof.
  intros H. split; [|split; [|split]].
  - unfold argsToWordBuf. rewrite skipn_length_app.
    rewrite wordLoop_Done.
    + cbn [app]. f_equal. clear H.
      induction zs as [|z zs IH]; [reflexivity|].
      cbn [map flat_map]. rewrite IH. f_equal.
      unfold word_of. cbn [of_token]. rewrite parseInt_number. reflexivity.
    + intros t Hin. apply in_map_iff in Hin. destruct Hin as (z & <- & Hz).
      apply number_token_finite_within.
      rewrite Forall_forall in H. exact (H z Hz).
  - induction H as [|z zs Hz _ IH]; [reflexivity|].
    cbn [flat_map]. rewrite (uint16BE_decodes z _ Hz), IH. reflexivity.
  - clear H. induction zs as [|z zs IH]; [reflexivity|].
    cbn [flat_map]. rewrite length_app, IH. cbn. lia.
  - apply Forall_forall. intros b Hb. apply in_flat_map in Hb.
    destruct Hb as (z & _ & Hb). unfold uint16BE in Hb.
    destruct Hb as [<- | [<- | []]];
      match goal with
      | |- 0 <= ?a mod 256 <= 255 =>
          pose proof (Z.mod_pos_bound a 256); lia
      end.
Qed.

(** [mb write holding 0 0x100 32 23], read from index 3. *)
Lemma argsToWordBuf_numbers_witness :
  argsToWordBuf None
    [TStr "write"; TStr "holding"; TNum 0; TNum 256; TNum 32; TNum 23] 3
  = Done [1; 0; 0; 32; 0; 23] /\
  decodeUInt16BE [1; 0; 0; 32; 0; 23] = [256; 32; 23].
Proof.
  pose proof (argsToWordBuf_numbers None
                [TStr "write"; TStr "holding"; TNum 0] [256; 32; 23])
    as H.
  assert (R : Forall (fun z => 0 <= z <= 65535) [256; 32; 23])
    by (repeat constructor; lia).
  destruct (H R) as (H1 & H2 & _).
  split; [exact H1 | exact H2].
Defined.

Lemma byteLoop_app (ok : list token) :
  forall rest values,
    (forall t, In t ok -> ~ finite_outside 255 t) ->
    byteLoop (ok ++ rest) values
    = byteLoop rest
        (values ++ map (fun t => parseInt (of_token t)) ok)%list.
Proof.
  induction ok as [|t ok IH]; intros rest values H; cbn [app map byteLoop].
  - rewrite app_nil_r. reflexivity.
  - rewrite tokenNumber_parseInt.
    assert (G : ~ finite_outside 255 t) by (apply H; left; reflexivity).
    apply guard_passes in G. rewrite G.
    rewrite IH by (intros t' Ht'; apply H; right; exact Ht').
    rewrite <- app_assoc. reflexivity.
Qed.

Lemma wordLoop_app (nanpush : option (list Z)) (ok : list token) :
  forall rest data,
    (forall t, In t ok -> finite_within 65535 t) ->
    wordLoop nanpush (ok ++ rest) data
    = wordLoop nanpush rest (data ++ flat_map word_of ok)%list.
Proof.
  induction ok as [|t ok IH]; intros rest data H; cbn [app flat_map wordLoop].
  - rewrite app_nil_r. reflexivity.
  - rewrite tokenNumber_parseInt.
    destruct (H t (or_introl eq_refl)) as (z & Hz & Hr).
    unfold word_of at 1. rewrite Hz. cbn [num_lt num_gt pushUInt16].
    replace (z <? 0) with false by (symmetry; apply Z.ltb_ge; lia).
    replace (65535 <? z) with false by (symmetry; apply Z.ltb_ge; lia).
    cbn [orb]. rewrite IH by (intros t' Ht'; apply H; right; exact Ht').
    rewrite <- app_assoc. reflexivity.
Qed.

(** Settles [Forall plain toks] for a list of tokens written out. *)
Ltac plain_token :=
  match goal with
  | |- plain (TNum _) => unfold plain, safe_integer; lia
  | |- plain (TStr _) =>
      unfold plain; split;
      [reflexivity | vm_compute; first [exact I | split; discriminate]]
  end.

Ltac plain_tokens :=
  repeat first [apply Forall_nil | apply Forall_cons; [plain_token|]].

(** ** What stops the parsers *)

(** With the builder that raises, a word buffer comes back only when no
    token reads as [NaN]. *)
Lemma wordLoop_raising_Done (rest : list token) :
  forall data values,
    wordLoop h5_buffers rest data = Done values ->
    forall t, In t rest -> parseInt (of_token t) <> NaN.
Proof.
  induction rest as [|a rest IH]; intros data values H t Hin;
    [destruct Hin|].
  cbn [wordLoop] in H. rewrite tokenNumber_parseInt in H.
  destruct (num_lt _ 0 || num_gt _ 65535); [discriminate|].
  destruct (parseInt (of_token a)) as [|z] eqn:P;
    cbn [pushUInt16 h5_buffers] in H; [discriminate|].
  destruct Hin as [<- | Hin].
  - rewrite P. discriminate.
  - exact (IH _ _ H t Hin).
Qed.

(** C10, as the code has it.  What the parsers read from a token is
    [parseInt] of it.  On tokens the embedding reads to the last digit,
    both parsers call [exit(1)] only for a token that reads as a number,
    not [NaN], outside [0, 255] (respectively [0, 65535]), and the byte
    parser does so whenever there is one.  An ASCII token that does not
    start with white space, a sign or a digit reads as [NaN], and the
    guard lets [NaN] through.  In the byte buffer it becomes the octet
    0, and [write memory] and [command] go on to call the master with
    that buffer.  In the word parser the [NaN], once the words before it
    are in the builder, is handed to [builder.pushUInt16], which raises:
    nobody catches the exception.  So [write holding] with a token that
    reads as [NaN] never calls the master and ends the process with
    status 1, by the exception or by an [exit(1)] at a token out of
    range before it. *)
Theorem parsers_exit_only_on_finite_out_of_range :
  (forall t, tokenNumber (of_token t) = Some (parseInt (of_token t))) /\
  (forall args start m c,
      Forall plain (skipn start args) ->
      argsToByteBuf args start = Fatal m c ->
      c = 1 /\ exists t, In t (skipn start args) /\ finite_outside 255 t) /\
  (forall args start m c,
      Forall plain (skipn start args) ->
      argsToWordBuf h5_buffers args start = Fatal m c ->
      c = 1 /\ exists t, In t (skipn start args) /\ finite_outside 65535 t) /\
  (forall args start,
      Forall plain (skipn start args) ->
      (exists t, In t (skipn start args) /\ finite_outside 255 t) ->
      exists m, argsToByteBuf args start = Fatal m 1) /\
  (forall c rest,
      (nat_of_ascii c < 128)%nat ->
      is_space c = false ->
      Ascii.eqb c "-" || Ascii.eqb c "+" = false ->
      digit_in 10 c = None ->
      parseInt (of_token (TStr (String c rest))) = NaN) /\
  (forall t,
      plain t ->
      parseInt (of_token t) = NaN ->
      ~ finite_outside 255 t /\ ~ finite_outside 65535 t /\ octet_of t = 0) /\
  (forall args start,
      Forall plain (skipn start args) ->
      (forall t, In t (skipn start args) -> ~ finite_outside 255 t) ->
      argsToByteBuf args start = Done (map octet_of (skipn start args))) /\
  (forall args addr toks,
      args__ args = TStr "write" :: TStr "memory" :: addr :: toks ->
      Forall plain (addr :: toks) ->
      (forall t, In t toks -> ~ finite_outside 255 t) ->
      doAction h5_buffers args
      = Done (writeMemory (parseInt (of_token addr)) (map octet_of toks))) /\
  (forall args id toks,
      args__ args = TStr "command" :: id :: toks ->
      args_length args = JUndefined ->
      Forall plain toks ->
      (forall t, In t toks -> ~ finite_outside 255 t) ->
      doAction h5_buffers args
      = Done (command (of_token id) (map octet_of toks))) /\
  (forall args addr ok t rest,
      args__ args
      = TStr "write" :: TStr "holding" :: addr :: (ok ++ t :: rest)%list ->
      Forall plain (ok ++ [t]) ->
      (forall x, In x ok -> finite_within 65535 x) ->
      parseInt (of_token t) = NaN ->
      doAction h5_buffers args = Thrown /\
      forall startTime replies,
        dispatch h5_buffers args startTime replies = [UncaughtException] /\
        exit_status (dispatch h5_buffers args startTime replies) = Some 1 /\
        calls (dispatch h5_buffers args startTime replies) = []) /\
  (forall args addr toks t,
      args__ args = TStr "write" :: TStr "holding" :: addr :: toks ->
      Forall plain toks ->
      In t toks ->
      parseInt (of_token t) = NaN ->
      (forall m, doAction h5_buffers args <> Done m) /\
      forall startTime replies,
        exit_status (dispatch h5_buffers args startTime replies) = Some 1 /\
        calls (dispatch h5_buffers args startTime replies) = []).
Proof.
  split; [exact tokenNumber_parseInt|].
  split.
  { intros args start m c _ H. exact (argsToByteBuf_Fatal _ _ _ _ H). }
  split.
  { intros args start m c _ H. exact (wordLoop_Fatal h5_buffers _ _ _ _ H). }
  split.
  { intros args start _ H. unfold argsToByteBuf.
    destruct (byteLoop_trips _ [] H) as [m Hm]. exists m.
    rewrite Hm. reflexivity. }
  split.
  { intros c rest _. exact (parseInt_non_numeric c rest). }
  split.
  { intros t _ H. split; [exact (NaN_not_finite_outside _ _ H)|].
    split; [exact (NaN_not_finite_outside _ _ H)|].
    unfold octet_of. rewrite H. reflexivity. }
  split.
  { intros args start _ H. exact (argsToByteBuf_Done args start H). }
  split.
  { intros args addr toks Ha _ Hok.
    rewrite (doAction_write_memory h5_buffers args addr toks Ha).
    rewrite (argsToByteBuf_Done toks 0 Hok). reflexivity. }
  split.
  { intros args id toks Ha Hl _ Hok.
    rewrite (doAction_command h5_buffers args id toks Ha)
      by (rewrite Hl; reflexivity).
    rewrite (argsToByteBuf_Done toks 0 Hok). reflexivity. }
  split.
  { intros args addr ok t rest Ha _ Hok Ht.
    assert (D : doAction h5_buffers args = Thrown).
    { rewrite (doAction_write_holding h5_buffers args addr _ Ha).
      unfold argsToWordBuf. cbn [skipn].
      rewrite (wordLoop_app h5_buffers ok (t :: rest) [] Hok).
      rewrite (wordLoop_NaN h5_buffers t rest _ Ht). reflexivity. }
    split; [exact D|]. intros startTime replies.
    assert (T : dispatch h5_buffers args startTime replies
                = [UncaughtException]).
    { destruct replies; cbn [dispatch]; rewrite D; reflexivity. }
    rewrite T. repeat split. }
  intros args addr toks t Ha _ Hin Ht.
  pose proof (doAction_write_holding h5_buffers args addr toks Ha) as D.
  destruct (argsToWordBuf h5_buffers toks 0) as [values|msg code|] eqn:E.
  - exfalso. unfold argsToWordBuf in E. cbn [skipn] in E.
    exact (wordLoop_raising_Done toks [] values E t Hin Ht).
  - assert (C : code = 1) by exact (proj1 (wordLoop_Fatal _ _ _ _ _ E)).
    subst code. split; [intros m; rewrite D; discriminate|].
    intros startTime replies.
    assert (T : dispatch h5_buffers args startTime replies
                = Stderr msg :: exit true 1).
    { destruct replies; cbn [dispatch]; rewrite D; reflexivity. }
    rewrite T. split; reflexivity.
  - split; [intros m; rewrite D; discriminate|].
    intros startTime replies.
    assert (T : dispatch h5_buffers args startTime replies
                = [UncaughtException]).
    { destruct replies; cbn [dispatch]; rewrite D; reflexivity. }
    rewrite T. split; reflexivity.
Qed.

(** [mb write memory 0x400 zz 7]: the address is 1024 and the buffer is
    [0, 7]; [mb write memory 0 256] is stopped by the token 256;
    [mb write holding 0 9 zz 7] raises at [zz]. *)
Lemma parsers_exit_only_on_finite_out_of_range_witness :
  doAction h5_buffers
    (positional [TStr "write"; TStr "memory"; TNum 1024; TStr "zz"; TNum 7])
  = Done (writeMemory (Num 1024) [0; 7]) /\
  (argsToByteBuf [TNum 256] 0 = Fatal "Invalid data value: 256" 1 /\
   exists t, In t [TNum 256] /\ finite_outside 255 t) /\
  doAction h5_buffers
    (positional [TStr "write"; TStr "holding"; TNum 0; TNum 9; TStr "zz";
                 TNum 7])
  = Thrown.
Proof.
  pose proof parsers_exit_only_on_finite_out_of_range
    as (_ & Hb & _ & _ & _ & _ & _ & Hm & _ & Hn & _).
  split; [|split].
  - apply (Hm (positional
                 [TStr "write"; TStr "memory"; TNum 1024; TStr "zz"; TNum 7])
              (TNum 1024) [TStr "zz"; TNum 7] eq_refl).
    + plain_tokens.
    + read_each_token.
  - split; [reflexivity|].
    refine (proj2 (Hb [TNum 256] 0%nat "Invalid data value: 256" 1 _ eq_refl)).
    cbn [skipn]. plain_tokens.
  - refine (proj1 (Hn (positional
                         [TStr "write"; TStr "holding"; TNum 0; TNum 9;
                          TStr "zz"; TNum 7])
                      (TNum 0) [TNum 9] (TStr "zz") [TNum 7] eq_refl _ _
                      eq_refl)).
    + cbn [app]. plain_tokens.
    + intros x [<- | []]. exists 9. split; [reflexivity | lia].
Defined.

(** C10 as stated fails for the word parser.  In
    [mb write holding 0 zz 7] no token reads as a number out of range
    and [zz] reads as [NaN], yet the command does not go on to the
    master: the builder raises, the run makes no request and ends with
    status 1. *)
Lemma word_parser_NaN_is_not_sent :
  parseInt (of_token (TStr "zz")) = NaN /\
  (forall t, In t [TStr "zz"; TNum 7] -> ~ finite_outside 65535 t) /\
  argsToWordBuf h5_buffers [TStr "zz"; TNum 7] 0 = Thrown /\
  doAction h5_buffers
    (positional [TStr "write"; TStr "holding"; TNum 0; TStr "zz"; TNum 7])
  = Thrown /\
  calls (main h5_buffers
           (positional [TStr "write"; TStr "holding"; TNum 0; TStr "zz";
                        TNum 7])
           bare_env FileAbsent true (LinkUp 0 [three_registers 5]))
  = [] /\
  exit_status (main h5_buffers
                 (positional [TStr "write"; TStr "holding"; TNum 0;
                              TStr "zz"; TNum 7])
                 bare_env FileAbsent true (LinkUp 0 [three_registers 5]))
  = Some 1.
Proof.
  split; [reflexivity|]. split; [read_each_token|].
  repeat split.
Qed.

(** X4.  The first token out of range decides: when the tokens before
    it are in order, both parsers stop at it with "Invalid data value: "
    followed by the token as written and [exit(1)], whatever comes after
    it.  The tokens up to and including that one are [plain]: a number
    too large to be printed digit by digit is read from the front of its
    exponent notation and is no offender. *)
Theorem parsers_stop_at_first_offender (nanpush : option (list Z))
    (ok rest : list token) (bad : token) :
  Forall plain (ok ++ [bad]) ->
  (forall t, In t ok -> finite_within 65535 t) ->
  (finite_outside 65535 bad ->
   argsToWordBuf nanpush (ok ++ bad :: rest) 0
   = Fatal ("Invalid data value: " ++ toString (of_token bad)) 1) /\
  ((forall t, In t ok -> ~ finite_outside 255 t) ->
   finite_outside 255 bad ->
   argsToByteBuf (ok ++ bad :: rest) 0
   = Fatal ("Invalid data value: " ++ toString (of_token bad)) 1).
Proof.
  intros _ Hw. split.
  - intros Hbad. unfold argsToWordBuf. cbn [skipn].
    rewrite (wordLoop_app nanpush ok (bad :: rest) [] Hw).
    cbn [wordLoop]. rewrite tokenNumber_parseInt.
    apply guard_trips in Hbad. rewrite Hbad. reflexivity.
  - intros Hb Hbad. unfold argsToByteBuf. cbn [skipn].
    rewrite (byteLoop_app ok (bad :: rest) [] Hb).
    cbn [byteLoop]. rewrite tokenNumber_parseInt.
    apply guard_trips in Hbad. rewrite Hbad. reflexivity.
Qed.

(** Values [1 300 zz 70000]: the byte parser stops at 300. *)
Lemma parsers_stop_at_first_offender_witness :
  argsToByteBuf [TNum 1; TNum 300; TStr "zz"; TNum 70000] 0
  = Fatal "Invalid data value: 300" 1 /\
  argsToWordBuf h5_buffers [TNum 1; TNum 70000; TStr "zz"] 0
  = Fatal "Invalid data value: 70000" 1.
Proof.
  assert (Hok : forall t, In t [TNum 1] -> finite_within 65535 t).
  { intros t [<- | []]. exists 1. split; [reflexivity | lia]. }
  assert (P300 : Forall plain ([TNum 1] ++ [TNum 300])).
  { cbn [app]. plain_tokens. }
  assert (P70000 : Forall plain ([TNum 1] ++ [TNum 70000])).
  { cbn [app]. plain_tokens. }
  split.
  - apply (proj2 (parsers_stop_at_first_offender h5_buffers [TNum 1]
                    [TStr "zz"; TNum 70000] (TNum 300) P300 Hok)).
    + read_each_token.
    + exists 300. split; [reflexivity | lia].
  - apply (proj1 (parsers_stop_at_first_offender h5_buffers [TNum 1]
                    [TStr "zz"] (TNum 70000) P70000 Hok)).
    exists 70000. split; [reflexivity | lia].
Defined.

(** ** The dispatcher at its edges *)

Lemma skipn_past_end {A : Type} (l : list A) (n : nat) :
  (List.length l <= n)%nat -> skipn n l = [].
Proof.
  revert l. induction n as [|n IH]; intros [|a l] H; try reflexivity.
  - simpl in H. lia.
  - apply IH. simpl in H. lia.
Qed.

(** X5.  The script does not look for missing values in the byte
    commands: past the end of the tokens both parsers return an empty
    buffer without exiting, and [write memory] and [command] get as far
    as calling the master with that empty buffer, with address 0 when
    [write memory] has no address either.  ([write holding] is stopped
    by the script itself in that case.)  What the master makes of an
    empty buffer is its own code. *)
Theorem empty_values_are_not_checked (nanpush : option (list Z)) :
  (forall args start,
      (List.length args <= start)%nat ->
      argsToByteBuf args start = Done [] /\
      argsToWordBuf nanpush args start = Done []) /\
  (forall args,
      args__ args = [TStr "write"; TStr "memory"] ->
      doAction nanpush args = Done (writeMemory (Num 0) [])) /\
  (forall args addr,
      args__ args = [TStr "write"; TStr "memory"; addr] ->
      plain addr ->
      doAction nanpush args
      = Done (writeMemory (parseInt (of_token addr)) [])) /\
  (forall args id,
      args__ args = [TStr "command"; id] ->
      args_length args = JUndefined ->
      doAction nanpush args = Done (command (of_token id) [])) /\
  (forall args addr,
      args__ args = [TStr "write"; TStr "holding"; addr] ->
      doAction nanpush args = Fatal "No values specified " 1).
Proof.
  split; [|split; [|split; [|split]]].
  - intros args start H. unfold argsToByteBuf, argsToWordBuf.
    rewrite (skipn_past_end args start H). split; reflexivity.
  - intros args H. unfold doAction. rewrite H. reflexivity.
  - intros args addr H _.
    rewrite (doAction_write_memory nanpush args addr [] H). reflexivity.
  - intros args id H L.
    rewrite (doAction_command nanpush args id [] H)
      by (rewrite L; reflexivity).
    reflexivity.
  - intros args addr H.
    rewrite (doAction_write_holding nanpush args addr [] H). reflexivity.
Qed.

(** [mb write memory 0x400] and [mb command 7]. *)
Lemma empty_values_are_not_checked_witness :
  doAction h5_buffers (positional [TStr "write"; TStr "memory"; TNum 1024])
  = Done (writeMemory (Num 1024) []) /\
  doAction h5_buffers (positional [TStr "command"; TNum 7])
  = Done (command (JNum 7) []).
Proof.
  pose proof (empty_values_are_not_checked h5_buffers) as (_ & _ & Hm & Hc & _).
  split.
  - apply (Hm (positional [TStr "write"; TStr "memory"; TNum 1024])
              (TNum 1024) eq_refl).
    plain_token.
  - exact (Hc (positional [TStr "command"; TNum 7]) (TNum 7)
              eq_refl eq_refl).
Defined.



Lemma parseNumber_elem (a : list token) (k : nat) (def : jsnum) :
  parseNumber (elem a k) def
  = Some (match nth_error a k with
          | Some t => parseInt (of_token t)
          | None => def
          end).
Proof.
  unfold elem. destruct (nth_error a k) as [t|]; [|reflexivity].
  apply parseNumber_token.
Qed.

(** X7.  The script checks nothing in [read memory]: whatever follows,
    it gets as far as calling [master.readMemory], with [parseInt] of
    the address and length tokens, [NaN] included, 0 for a missing
    address and 1 for a missing length.  A length given as 0 stays 0.
    The two tokens are [plain]; whether the master takes the call or
    raises on what it is handed is its own code. *)
Theorem read_memory_is_not_validated (nanpush : option (list Z)) (args : cli)
    (rest : list token) :
  args__ args = TStr "read" :: TStr "memory" :: rest ->
  Forall plain (firstn 2 rest) ->
  doAction nanpush args
  = Done (readMemory
            (match rest with
             | t :: _ => parseInt (of_token t)
             | [] => Num 0
             end)
            (match rest with
             | _ :: t :: _ => parseInt (of_token t)
             | _ => Num 1
             end)).
Proof.
  intros H _. unfold doAction. rewrite H.
  change (same (elem (TStr "read" :: TStr "memory" :: rest) 0) "read")
    with true.
  change (jor (elem (TStr "read" :: TStr "memory" :: rest) 1)
              (JStr "unknown")) with (JStr "memory").
  cbv beta zeta iota.
  change (same (JStr "memory") "coil") with false.
  change (same (JStr "memory") "discrete") with false.
  change (same (JStr "memory") "holding") with false.
  change (same (JStr "memory") "input") with false.
  change (same (JStr "memory") "slave") with false.
  change (same (JStr "memory") "fifo") with false.
  change (same (JStr "memory") "object") with false.
  change (same (JStr "memory") "memory") with true.
  cbv iota. rewrite !parseNumber_elem.
  destruct rest as [|t [|t' rest']]; reflexivity.
Qed.

(** [mb read memory zz 0]. *)
Lemma read_memory_is_not_validated_witness :
  doAction h5_buffers
    (positional [TStr "read"; TStr "memory"; TStr "zz"; TNum 0])
  = Done (readMemory NaN (Num 0)).
Proof.
  apply (read_memory_is_not_validated h5_buffers
           (positional [TStr "read"; TStr "memory"; TStr "zz"; TNum 0])
           [TStr "zz"; TNum 0] eq_refl).
  cbn [firstn]. plain_tokens.
Defined.

(** Splits the [if]s and [match]es of a hypothesis about [doAction], one
    case of the switch at a time. *)
Ltac switch_cases H :=
  repeat match type of H with
         | context [if ?b then _ else _] => destruct b eqn:?
         | context [match ?x with _ => _ end] => destruct x eqn:?
         end.

Lemma jor_default_truthy (x d : jsval) :
  truthy d = true -> truthy (jor x d) = true.
Proof.
  intros H. unfold jor. destruct (truthy x) eqn:E; [exact E | exact H].
Qed.

(** X8.  A count or a value that is 0 never reaches the master: in the
    four register and coil reads the quantity, in [read fifo] the
    maximum and in [write coil] the value are truthy in every request
    sent, a 0 (or nothing) on the command line having been replaced by
    the default 1 (250 for the fifo).  So [write coil] cannot write
    the number 0. *)
Theorem zero_is_replaced_by_default (nanpush : option (list Z)) (args : cli)
    (a q : jsval) :
  doAction nanpush args = Done (readCoils a q) \/
  doAction nanpush args = Done (readDiscreteInputs a q) \/
  doAction nanpush args = Done (readHoldingRegisters a q) \/
  doAction nanpush args = Done (readInputRegisters a q) \/
  doAction nanpush args = Done (readFifo8 a q) \/
  doAction nanpush args = Done (writeSingleCoil a q) ->
  truthy q = true /\ q <> JNum 0.
Proof.
  intros H.
  assert (T : truthy q = true).
  { unfold doAction in H.
    destruct H as [H | [H | [H | [H | [H | H]]]]];
      switch_cases H; try discriminate H;
      injection H as _ <-; apply jor_default_truthy; reflexivity. }
  split; [exact T|]. intros ->. discriminate T.
Qed.

(** [mb write coil 5 0] writes 1. *)
Lemma zero_is_replaced_by_default_witness :
  doAction None (positional [TStr "write"; TStr "coil"; TNum 5; TNum 0])
  = Done (writeSingleCoil (JNum 5) (JNum 1)) /\
  truthy (JNum 1) = true.
Proof.
  split; [reflexivity|].
  refine (proj1 (zero_is_replaced_by_default None
            (positional [TStr "write"; TStr "coil"; TNum 5; TNum 0])
            (JNum 5) (JNum 1) _)).
  right; right; right; right; right. reflexivity.
Defined.

Lemma wordLoop_Thrown (nanpush : option (list Z)) (rest : list token) :
  forall data,
    wordLoop nanpush rest data = Thrown ->
    nanpush = None /\
    exists t, In t rest /\ parseInt (of_token t) = NaN.
Proof.
  induction rest as [|t rest IH]; intros data H; cbn [wordLoop] in H.
  - discriminate.
  - rewrite tokenNumber_parseInt in H.
    destruct (num_lt _ 0 || num_gt _ 65535); [discriminate|].
    destruct (parseInt (of_token t)) as [|z] eqn:P; cbn [pushUInt16] in H.
    + destruct nanpush as [bs|].
      * destruct (IH _ H) as (Hn & _). discriminate Hn.
      * split; [reflexivity|]. exists t. split; [left; reflexivity | exact P].
    + destruct (IH _ H) as (Hn & t' & Hin & Ht').
      split; [exact Hn|]. exists t'. split; [right; exact Hin | exact Ht'].
Qed.

Lemma doAction_Fatal_code (nanpush : option (list Z)) (args : cli)
    (m : string) (c : Z) :
  doAction nanpush args = Fatal m c -> c = 1.
Proof.
  intros H. unfold doAction in H.
  switch_cases H; try discriminate H;
    try (injection H as _ <-; reflexivity);
    injection H as -> ->;
    match goal with
    | E : argsToByteBuf _ _ = Fatal _ _ |- _ =>
        exact (proj1 (argsToByteBuf_Fatal _ _ _ _ E))
    | E : argsToWordBuf _ _ _ = Fatal _ _ |- _ =>
        exact (proj1 (wordLoop_Fatal _ _ _ _ _ E))
    end.
Qed.

(** X9.  What the script's own lines in [doAction] can do before the
    master is called.  Whenever they exit, the status is 1.  On [plain]
    tokens they raise in one place only, the builder of [write holding]
    when it is handed [NaN]: every other command either gets as far as
    its call of the master or exits.  Exceptions the master raises
    inside the call are the master's own and are not counted here. *)
Theorem doAction_own_failures (nanpush : option (list Z)) (args : cli) :
  (forall m c, doAction nanpush args = Fatal m c -> c = 1) /\
  (Forall plain (args__ args) ->
   doAction nanpush args = Thrown ->
   nanpush = None /\
   elem (args__ args) 0 = JStr "write" /\
   elem (args__ args) 1 = JStr "holding" /\
   exists t, In t (skipn 3 (args__ args)) /\ parseInt (of_token t) = NaN).
Proof.
  split.
  - exact (doAction_Fatal_code nanpush args).
  - intros _ H. unfold doAction in H.
    switch_cases H; try discriminate H;
      try match goal with
          | E : parseNumber (elem _ _) _ = None |- _ =>
              rewrite parseNumber_elem in E; discriminate E
          | E : argsToByteBuf _ _ = Thrown |- _ =>
              exfalso; exact (argsToByteBuf_not_Thrown _ _ E)
          end.
    match goal with
    | E : argsToWordBuf _ _ _ = Thrown |- _ =>
        destruct (wordLoop_Thrown _ _ _ E) as (Hn & Ht)
    end.
    split; [exact Hn|].
    repeat match goal with
           | E : same _ _ = true |- _ => apply same_iff in E
           end.
    split; [assumption|]. split; [|exact Ht].
    match goal with
    | E : jor (elem _ 1) _ = JStr "holding" |- _ =>
        unfold jor in E; destruct (truthy (elem (args__ args) 1));
        [exact E | discriminate E]
    end.
Qed.

(** [mb write holding 0 zz]. *)
Lemma doAction_own_failures_witness :
  doAction h5_buffers
    (positional [TStr "write"; TStr "holding"; TNum 0; TStr "zz"])
  = Thrown /\
  exists t, In t [TStr "zz"] /\ parseInt (of_token t) = NaN.
Proof.
  split; [reflexivity|].
  refine (proj2 (proj2 (proj2 (proj2 (doAction_own_failures h5_buffers
            (positional [TStr "write"; TStr "holding"; TNum 0; TStr "zz"]))
            _ eq_refl)))).
  change (args__ (positional
                    [TStr "write"; TStr "holding"; TNum 0; TStr "zz"]))
    with [TStr "write"; TStr "holding"; TNum 0; TStr "zz"].
  plain_tokens.
Defined.

(** ** The layers under the command line *)

(** X10.  Below the command line.  For each of the seven keys, when the
    command-line value is absent or falsy, an environment variable that
    is set and not empty is the resolved value, as the string it is,
    also for the numeric keys; when the variable is unset or empty the
    value of the loaded configuration stays.  The loaded configuration
    is the built-in one under [--default] and the file's otherwise. *)
Theorem lower_layers (k : key) (args : cli) (env : environment)
    (f : config_file) :
  truthy (cli_value k args) = false ->
  (forall s,
      env_value k env = Some s -> s <> "" ->
      config_value k (resolved args env f) = JStr s) /\
  (env_value k env = None \/ env_value k env = Some "" ->
   config_value k (resolved args env f)
   = config_value k (loadConfig args f)) /\
  (truthy (args_default args) = true ->
   loadConfig args f = CONFIG_DEFAULTS) /\
  (forall c,
      truthy (args_default args) = false -> f = FileJson c ->
      loadConfig args f = c).
Proof.
  intros Hcli.
  assert (E : config_value k (resolved args env f)
              = jor (jor (cli_value k args) (of_env (env_value k env)))
                    (config_value k (loadConfig args f)))
    by (destruct k; reflexivity).
  split; [|split; [|split]].
  - intros s Hs Hne. rewrite E, Hs. unfold jor at 2. rewrite Hcli.
    apply jor_truthy. cbn [of_env truthy].
    destruct (String.eqb s "") eqn:Q; [|reflexivity].
    apply String.eqb_eq in Q. contradiction.
  - intros Hs. rewrite E. unfold jor at 2. rewrite Hcli.
    apply jor_falsy. destruct Hs as [-> | ->]; reflexivity.
  - intros Hd. unfold loadConfig. rewrite Hd. reflexivity.
  - intros c Hd ->. unfold loadConfig. rewrite Hd. reflexivity.
Qed.

(** [MODBUS_SLAVE=5] and no [--slave]: the unit is the string ["5"]. *)
Lemma lower_layers_witness :
  truthy (cli_value Unit (positional [TStr "read"; TStr "slave"])) = false /\
  config_value Unit
    (resolved (positional [TStr "read"; TStr "slave"]) slave_5_env FileAbsent)
  = JStr "5".
Proof.
  split; [reflexivity|].
  refine (proj1 (lower_layers Unit (positional [TStr "read"; TStr "slave"])
                   slave_5_env FileAbsent eq_refl) "5" eq_refl _).
  discriminate.
Defined.

(** ** The MAC-address rule *)

Lemma mac_groups_length (n : nat) :
  forall s, mac_groups n s = true -> String.length s = (3 * n + 2)%nat.
Proof.
  induction n as [|n IH]; intros s H.
  - destruct s as [|a [|b [|c r]]]; try discriminate H; reflexivity.
  - destruct s as [|a [|b [|c r]]]; try discriminate H.
    cbn [mac_groups] in H. apply Bool.andb_true_iff in H.
    destruct H as [_ H]. apply IH in H. cbn [String.length]. lia.
Qed.

Lemma mac_groups_separator (n : nat) (a b : ascii) (s : string) :
  mac_groups (S n) (String a (String b s)) = true ->
  exists sep rest, s = String sep rest /\ is_mac_separator sep = true.
Proof.
  destruct s as [|sep rest]; [discriminate|]. cbn [mac_groups].
  rewrite !Bool.andb_true_iff. intros [[_ H] _]. eauto.
Qed.

Lemma printed_digit_no_separator (u : Decimal.uint) (sep : ascii)
    (rest : string) :
  NilEmpty.string_of_uint u = String sep rest ->
  is_mac_separator sep = false.
Proof. destruct u; intros [= <- _]; reflexivity. Qed.

Lemma printed_uint_no_mac (n : nat) (u : Decimal.uint) :
  mac_groups (S n) (NilEmpty.string_of_uint u) = false.
Proof.
  destruct (mac_groups (S n) (NilEmpty.string_of_uint u)) eqn:E;
    [|reflexivity].
  exfalso.
  destruct u as [|u|u|u|u|u|u|u|u|u|u]; try discriminate E;
    destruct u as [|u|u|u|u|u|u|u|u|u|u]; try discriminate E;
    cbn [NilEmpty.string_of_uint] in E;
    apply mac_groups_separator in E;
    destruct E as (sep & rest & Hs & Hsep);
    rewrite (printed_digit_no_separator _ _ _ Hs) in Hsep;
    discriminate Hsep.
Qed.

Lemma macRE_test_string (v : jsval) :
  macRE_test v = true ->
  exists s, v = JStr s /\ String.length s = 17%nat.
Proof.
  unfold macRE_test. intros H. destruct v as [|b|z|s].
  - discriminate H.
  - destruct b; discriminate H.
  - exfalso. cbn [toString] in H. unfold string_of_Z in H.
    destruct z as [|p|p]; cbn [Z.to_int NilEmpty.string_of_int] in H.
    + vm_compute in H. discriminate H.
    + rewrite printed_uint_no_mac in H. discriminate H.
    + destruct (NilEmpty.string_of_uint (Pos.to_uint p)) as [|b [|c r]];
        vm_compute in H; discriminate H.
  - exists s. split; [reflexivity|].
    exact (mac_groups_length 5 s H).
Qed.

(** X11.  What the pattern of line 160 takes.  Only a string matches,
    and only one of exactly 17 characters: a port given as a number, as
    [true] or not at all never passes for a MAC address. *)
Theorem macRE_takes_17_character_strings (v : jsval) :
  macRE_test v = true ->
  exists s, v = JStr s /\ String.length s = 17%nat.
Proof. exact (macRE_test_string v). Qed.

Lemma macRE_takes_17_character_strings_witness :
  macRE_test (JStr "00:1a:7D:da:71:13") = true /\
  exists s, JStr "00:1a:7D:da:71:13" = JStr s /\ String.length s = 17%nat.
Proof.
  split; [reflexivity|].
  exact (macRE_takes_17_character_strings (JStr "00:1a:7D:da:71:13")
           eq_refl).
Defined.

(** X12.  A port that matches the MAC-address pattern decides the
    connection.  Unless [-l] is given, the script goes on with transport
    [ip] over connection [ble], whatever [--transport], [--connection],
    the environment and the defaults file say, and leaves [autoOpen]
    alone.  With [-l], or with a port that does not match, transport and
    connection stay as resolved and [autoOpen] is set to [false].  The
    port, the baud rate, the CAN settings and the unit are the resolved
    ones in every case. *)
Theorem mac_port_decides_connection (args : cli) (env : environment)
    (f : config_file) :
  let r := resolved args env f in
  let e := effective args env f in
  (macRE_test (port_name r) = true -> truthy (args_l args) = false ->
   master_transport_type e = JStr "ip" /\
   master_transport_connection_type e = JStr "ble" /\
   port_options_autoOpen e = port_options_autoOpen r) /\
  (macRE_test (port_name r) = false \/ truthy (args_l args) = true ->
   master_transport_type e = master_transport_type r /\
   master_transport_connection_type e = master_transport_connection_type r /\
   port_options_autoOpen e = JBool false) /\
  port_name e = port_name r /\
  port_options_baudRate e = port_options_baudRate r /\
  can_rate e = can_rate r /\
  can_myid e = can_myid r /\
  master_defaultUnit e = master_defaultUnit r.
Proof.
  cbv zeta. unfold effective, macRewrite.
  split; [|split].
  - intros Hm Hl. rewrite Hl, Hm.
    destruct (macRE_test_string _ Hm) as (s & Hs & Hlen).
    rewrite Hs. cbn [truthy].
    destruct s as [|c s']; [discriminate Hlen|]. repeat split.
  - intros [Hm | Hl].
    + rewrite Hm, Bool.andb_false_r. repeat split.
    + rewrite Hl. repeat split.
  - destruct (negb (truthy (args_l args)) && _ && _); repeat split.
Qed.

(** [--port=AA:BB:CC:DD:EE:FF --connection=serial --transport=rtu]. *)
Lemma mac_port_decides_connection_witness :
  master_transport_connection_type
    (effective
       {| args_default := JUndefined;
          args_port := JStr "AA:BB:CC:DD:EE:FF";
          args_slave := JUndefined; args_baudrate := JUndefined;
          args_baud := JUndefined; args_baudRate := JUndefined;
          args_transport := JStr "rtu"; args_connection := JStr "serial";
          args_canrate := JUndefined; args_canid := JUndefined;
          args_save := JUndefined; args_l := JUndefined;
          args_h := JUndefined; args_show := JUndefined;
          args_out := JUndefined; args_loop := JUndefined;
          args_length := JUndefined;
          args__ := [TStr "read"; TStr "slave"] |}
       bare_env FileAbsent)
  = JStr "ble".
Proof.
  exact (proj1 (proj2 (proj1 (mac_port_decides_connection
           {| args_default := JUndefined;
              args_port := JStr "AA:BB:CC:DD:EE:FF";
              args_slave := JUndefined; args_baudrate := JUndefined;
              args_baud := JUndefined; args_baudRate := JUndefined;
              args_transport := JStr "rtu"; args_connection := JStr "serial";
              args_canrate := JUndefined; args_canid := JUndefined;
              args_save := JUndefined; args_l := JUndefined;
              args_h := JUndefined; args_show := JUndefined;
              args_out := JUndefined; args_loop := JUndefined;
              args_length := JUndefined;
              args__ := [TStr "read"; TStr "slave"] |}
           bare_env FileAbsent) eq_refl eq_refl))).
Defined.

(** X13.  [isAscii] is fixed before the overrides.  With no readable
    defaults file, or under [--default], it is false even when
    [--transport] or [MODBUS_TRANSPORT] makes the resolved transport
    [ascii]; it is true exactly when the loaded configuration says
    [ascii]. *)
Theorem isAscii_ignores_overrides (args : cli) (env : environment)
    (f : config_file) :
  (isAscii args f = true
   <-> master_transport_type (loadConfig args f) = JStr "ascii") /\
  (truthy (args_default args) = true \/ f = FileAbsent \/ f = FileCorrupt ->
   isAscii args f = false) /\
  (args_transport args = JStr "ascii" ->
   master_transport_type (resolved args env f) = JStr "ascii") /\
  (truthy (args_transport args) = false ->
   MODBUS_TRANSPORT env = Some "ascii" ->
   master_transport_type (resolved args env f) = JStr "ascii").
Proof.
  split; [|split; [|split]].
  - unfold isAscii.
    destruct (master_transport_type (loadConfig args f)) as [|b|z|s];
      simpl; try (split; [discriminate | intros [=]]).
    rewrite String.eqb_eq.
    split; [intros ->; reflexivity | intros [= ->]; reflexivity].
  - intros H. unfold isAscii, loadConfig.
    destruct (truthy (args_default args)) eqn:D; [reflexivity|].
    destruct H as [H | [-> | ->]]; [discriminate H | reflexivity..].
  - intros H. unfold resolved, overrides. cbn [master_transport_type].
    rewrite H. reflexivity.
  - intros Ht He. unfold resolved, overrides. cbn [master_transport_type].
    rewrite He. unfold jor at 2. rewrite Ht. reflexivity.
Qed.

(** [MODBUS_TRANSPORT=ascii] with no defaults file. *)
Lemma isAscii_ignores_overrides_witness :
  isAscii (positional [TStr "read"; TStr "slave"]) FileAbsent = false /\
  master_transport_type
    (resolved (positional [TStr "read"; TStr "slave"])
       {| platform := "linux"; APPDATA := None; HOME := Some "/home/op";
          HOMEPATH := None; MODBUS_PORT := None; MODBUS_SLAVE := None;
          MODBUS_BAUDRATE := None; MODBUS_TRANSPORT := Some "ascii";
          MODBUS_CONNECTION := None; MODBUS_CANRATE := None;
          MODBUS_CANID := None |}
       FileAbsent)
  = JStr "ascii".
Proof.
  pose proof (isAscii_ignores_overrides
                (positional [TStr "read"; TStr "slave"])
                {| platform := "linux"; APPDATA := None;
                   HOME := Some "/home/op";
                   HOMEPATH := None; MODBUS_PORT := None;
                   MODBUS_SLAVE := None;
                   MODBUS_BAUDRATE := None;
                   MODBUS_TRANSPORT := Some "ascii";
                   MODBUS_CONNECTION := None; MODBUS_CANRATE := None;
                   MODBUS_CANID := None |}
                FileAbsent) as (_ & Hf & _ & He).
  split.
  - apply Hf. right. left. reflexivity.
  - exact (He eq_refl eq_refl).
Defined.

(** ** Whole runs *)

Section Runs.

Variable nanpush : option (list Z).

Lemma dispatch_call (args : cli) (t : Z) (m : master_call) :
  forall replies,
    In (Call m) (dispatch nanpush args t replies) ->
    doAction nanpush args = Done m.
Proof.
  induction replies as [|r rest IH]; intros H; cbn [dispatch] in H;
    destruct (doAction nanpush args) as [m'| |] eqn:E.
  - destruct H as [[= ->] | []]. reflexivity.
  - destruct H as [H | H]; [discriminate H|].
    unfold exit in H. destruct H as [H | [H | []]]; discriminate H.
  - destruct H as [H | []]. discriminate H.
  - destruct H as [[= ->] | H]; [reflexivity|].
    destruct (output args t (reply_time r) (reply_err r) (reply_buffer r))
      as [printed next].
    apply in_app_or in H. destruct H as [H | H].
    + apply in_map_iff in H. destruct H as (x & Hx & _). discriminate Hx.
    + destruct next as [code|].
      * unfold exit in H. destruct H as [H | [H | []]]; discriminate H.
      * exact (IH H).
  - destruct H as [H | H]; [discriminate H|].
    unfold exit in H. destruct H as [H | [H | []]]; discriminate H.
  - destruct H as [H | []]. discriminate H.
Qed.

Lemma connected_call (args : cli) (w : link) (m : master_call) :
  In (Call m) (connected nanpush args w) ->
  (exists t replies, w = LinkUp t replies) /\
  doAction nanpush args = Done m.
Proof.
  destruct w as [|err|t replies]; cbn [connected];
    [intros [] | intros [] |].
  intros [H | H]; [discriminate H|].
  split; [eauto | exact (dispatch_call _ _ _ _ H)].
Qed.

Lemma opened_call (args : cli) (w : link) (m : master_call) :
  In (Call m) (opened nanpush args w) ->
  (exists t replies, w = LinkUp t replies) /\
  doAction nanpush args = Done m.
Proof.
  destruct w as [|err|t replies]; cbn [opened].
  - intros [].
  - unfold exit. intros [H | [H | [H | []]]]; discriminate H.
  - apply connected_call.
Qed.

Lemma connect_call (args : cli) (c : config) (w : link) (m : master_call) :
  In (Call m) (connect nanpush args c w) ->
  (exists t replies, w = LinkUp t replies) /\
  doAction nanpush args = Done m.
Proof.
  unfold connect, createMaster.
  destruct (same _ "serial").
  { cbn [app]. intros [H | [H | H]]; try discriminate H.
    exact (opened_call _ _ _ H). }
  destruct (same _ "websocket").
  { cbn [app]. intros [H | H]; [discriminate H|].
    exact (connected_call _ _ _ H). }
  destruct (same _ "ble").
  { destruct w as [|err|t replies]; cbn [app].
    - intros [].
    - intros [H | [H | []]]; discriminate H.
    - intros [H | H]; [discriminate H|]. exact (connected_call _ _ _ H). }
  destruct (same _ "can-usb-com").
  { cbn [app]. intros [H | [H | H]]; try discriminate H.
    exact (opened_call _ _ _ H). }
  intros [].
Qed.

Lemma run_call (args : cli) (c : config) (w : link) (m : master_call) :
  In (Call m) (run nanpush args c w) ->
  truthy (args_l args) = false /\
  truthy (args_show args) = false /\
  unknownAction (elem (args__ args) 0) = false /\
  (exists t replies, w = LinkUp t replies) /\
  doAction nanpush args = Done m.
Proof.
  unfold run.
  destruct (truthy (args_l args)).
  { destruct (same _ "ble"); [intros [H | []]; discriminate H|].
    destruct (same _ "serial"); [|intros []].
    intros [H | [H | []]]; discriminate H. }
  destruct (truthy (args_show args)); [intros [H | []]; discriminate H|].
  destruct (unknownAction _).
  { unfold exit. intros [H | [H | []]]; discriminate H. }
  intros H. destruct (connect_call _ _ _ _ H) as [Hw Hd].
  repeat split; assumption.
Qed.

End Runs.

(** X14.  No request without a command.  The master is sent a request
    only when neither [-h], [-l] nor [--show] is given, the action is
    [read], [write] or [command], the write of [--save] (if asked for)
    went through and the master reported [connected]; and the request is
    the one [doAction] builds from the command line. *)
Theorem requests_only_in_dispatch_mode (nanpush : option (list Z))
    (args : cli) (env : environment) (f : config_file) (fs_ok : bool)
    (w : link) (m : master_call) :
  In (Call m) (main nanpush args env f fs_ok w) ->
  truthy (args_h args) = false /\
  truthy (args_l args) = false /\
  truthy (args_show args) = false /\
  unknownAction (elem (args__ args) 0) = false /\
  (truthy (args_save args) = true -> fs_ok = true) /\
  (exists t replies, w = LinkUp t replies) /\
  doAction nanpush args = Done m.
Proof.
  intros H.
  assert (A : In (Call m)
                (after_setup nanpush args
                   (macRewrite args (resolved args env f)) w) /\
              (truthy (args_save args) = true -> fs_ok = true)).
  { unfold main in H. destruct (truthy (args_save args)).
    - destruct H as [H | H]; [discriminate H|]. destruct fs_ok.
      + destruct H as [H | H]; [discriminate H|]. split; [exact H | reflexivity].
      + destruct H as [H | []]. discriminate H.
    - split; [exact H | discriminate]. }
  destruct A as [A S]. unfold after_setup in A.
  destruct (truthy (args_h args)).
  { destruct A as [A | [A | []]]; discriminate A. }
  destruct (run_call _ _ _ _ _ A) as (Hl & Hs & Hu & Hw & Hd).
  repeat split; assumption.
Qed.

(** [mb read slave] on a master that connects. *)
Lemma requests_only_in_dispatch_mode_witness :
  In (Call reportSlaveId)
     (main None (positional [TStr "read"; TStr "slave"]) bare_env FileAbsent
           true (LinkUp 0 [])) /\
  doAction None (positional [TStr "read"; TStr "slave"]) = Done reportSlaveId.
Proof.
  assert (H : In (Call reportSlaveId)
                (main None (positional [TStr "read"; TStr "slave"]) bare_env
                      FileAbsent true (LinkUp 0 [])))
    by (vm_compute; right; right; right; left; reflexivity).
  split; [exact H|].
  exact (proj2 (proj2 (proj2 (proj2 (proj2 (proj2
           (requests_only_in_dispatch_mode None _ _ _ _ _ _ H))))))).
Defined.

Lemma last_cases {A : Type} (l : list A) (d : A) :
  last l d = d \/ In (last l d) l.
Proof.
  induction l as [|a l IH]; [left; reflexivity|].
  destruct l as [|b l]; [right; left; reflexivity|].
  destruct IH as [IH | IH].
  - change (last (a :: b :: l) d) with (last (b :: l) d).
    left. exact IH.
  - change (last (a :: b :: l) d) with (last (b :: l) d).
    right. right. exact IH.
Qed.

Lemma exit_status_0_or_1 (trace : list event) (c : Z) :
  Forall exits_0_or_1 trace ->
  exit_status trace = Some c ->
  c = 0 \/ c = 1.
Proof.
  intros F H. unfold exit_status in H.
  destruct (last_cases trace (Stdout "")) as [E | E].
  - rewrite E in H. discriminate H.
  - rewrite Forall_forall in F. specialize (F _ E).
    destruct (last trace (Stdout "")); try discriminate H.
    + injection H as <-. exact F.
    + injection H as <-. right. reflexivity.
Qed.

Lemma exit_tame (b : bool) (c : Z) :
  c = 0 \/ c = 1 -> Forall exits_0_or_1 (exit b c).
Proof.
  intros H. unfold exit.
  destruct b; cbn [app]; [constructor; [exact I|]|];
    (constructor; [exact H | constructor]).
Qed.

Lemma output_codes (args : cli) (t now : Z) (err : option string)
    (response : list Z) (c : Z) :
  snd (output args t now err response) = Terminate c -> c = 0 \/ c = 1.
Proof.
  unfold output. destruct err; cbn [snd].
  - intros [= <-]. right. reflexivity.
  - destruct (truthy (args_loop args)); [discriminate|].
    intros [= <-]. left. reflexivity.
Qed.

Lemma Forall_map_Stdout (lines : list string) :
  Forall exits_0_or_1 (map Stdout lines).
Proof. induction lines; constructor; [exact I | assumption]. Qed.

Section RunsExit.

Variable nanpush : option (list Z).

Lemma dispatch_tame (args : cli) (t : Z) :
  forall replies, Forall exits_0_or_1 (dispatch nanpush args t replies).
Proof.
  induction replies as [|r rest IH]; cbn [dispatch];
    destruct (doAction nanpush args) as [m| msg code|] eqn:E.
  - repeat constructor.
  - constructor; [exact I|]. apply exit_tame. right.
    exact (doAction_Fatal_code _ _ _ _ E).
  - repeat constructor.
  - constructor; [exact I|].
    destruct (output args t (reply_time r) (reply_err r) (reply_buffer r))
      as [printed next] eqn:O.
    apply Forall_app. split; [apply Forall_map_Stdout|].
    destruct next as [code|].
    + apply exit_tame.
      apply (output_codes args t (reply_time r) (reply_err r)
               (reply_buffer r)).
      rewrite O. reflexivity.
    + exact IH.
  - constructor; [exact I|]. apply exit_tame. right.
    exact (doAction_Fatal_code _ _ _ _ E).
  - repeat constructor.
Qed.

Lemma connected_tame (args : cli) (w : link) :
  Forall exits_0_or_1 (connected nanpush args w).
Proof.
  destruct w; cbn [connected]; try constructor; try exact I.
  apply dispatch_tame.
Qed.

Lemma opened_tame (args : cli) (w : link) :
  Forall exits_0_or_1 (opened nanpush args w).
Proof.
  destruct w; cbn [opened]; try apply connected_tame.
  constructor; [exact I|]. apply exit_tame. right. reflexivity.
Qed.

Lemma connect_tame (args : cli) (c : config) (w : link) :
  Forall exits_0_or_1 (connect nanpush args c w).
Proof.
  unfold connect, createMaster.
  destruct (same _ "serial").
  { cbn [app]. constructor; [exact I|]. constructor; [exact I|].
    apply opened_tame. }
  destruct (same _ "websocket").
  { cbn [app]. constructor; [exact I|]. apply connected_tame. }
  destruct (same _ "ble").
  { destruct w; cbn [app].
    - constructor.
    - constructor; [exact I|]. constructor; [exact I|]. constructor.
    - constructor; [exact I|]. apply connected_tame. }
  destruct (same _ "can-usb-com").
  { cbn [app]. constructor; [exact I|]. constructor; [exact I|].
    apply opened_tame. }
  constructor.
Qed.

Lemma main_tame (args : cli) (env : environment) (f : config_file)
    (fs_ok : bool) (w : link) :
  Forall exits_0_or_1 (main nanpush args env f fs_ok w).
Proof.
  assert (A : forall c, Forall exits_0_or_1 (after_setup nanpush args c w)).
  { intros c. unfold after_setup, run.
    destruct (truthy (args_h args)).
    { constructor; [exact I|]. constructor; [left; reflexivity|].
      constructor. }
    destruct (truthy (args_l args)).
    { destruct (same _ "ble"); [constructor; [exact I | constructor]|].
      destruct (same _ "serial"); [|constructor].
      constructor; [exact I|]. constructor; [left; reflexivity|].
      constructor. }
    destruct (truthy (args_show args));
      [constructor; [exact I | constructor]|].
    destruct (unknownAction _); [|apply connect_tame].
    constructor; [exact I|]. apply exit_tame. right. reflexivity. }
  unfold main. destruct (truthy (args_save args)); [|apply A].
  constructor; [exact I|]. destruct fs_ok.
  - constructor; [exact I | apply A].
  - repeat constructor.
Qed.

End RunsExit.

(** X15.  The script ends the process with status 0 or 1 and no other:
    whatever the command line, the environment, the defaults file and
    the replies of the master, a run that calls [process.exit] or dies
    of an uncaught exception has status 0 or 1. *)
Theorem exit_status_is_0_or_1 (nanpush : option (list Z)) (args : cli)
    (env : environment) (f : config_file) (fs_ok : bool) (w : link)
    (c : Z) :
  exit_status (main nanpush args env f fs_ok w) = Some c ->
  c = 0 \/ c = 1.
Proof.
  apply exit_status_0_or_1. apply main_tame.
Qed.

(** [mb read object 3] answered with an error. *)
Lemma exit_status_is_0_or_1_witness :
  exit_status
    (main None (positional [TStr "read"; TStr "object"; TNum 3]) bare_env
          FileAbsent true
          (LinkUp 0 [{| reply_err := Some "timeout"; reply_buffer := [];
                        reply_time := 2000 |}]))
  = Some 1 /\ (1 = 0 \/ 1 = 1).
Proof.
  split; [reflexivity|].
  exact (exit_status_is_0_or_1 None
           (positional [TStr "read"; TStr "object"; TNum 3]) bare_env
           FileAbsent true
           (LinkUp 0 [{| reply_err := Some "timeout"; reply_buffer := [];
                         reply_time := 2000 |}])
           1 eq_refl).
Defined.

(** ** The loop *)

Lemma exit_status_cons (e : event) (l : list event) :
  l <> [] -> exit_status (e :: l) = exit_status l.
Proof. destruct l; [contradiction | reflexivity]. Qed.

Lemma exit_status_app (l1 l2 : list event) :
  l2 <> [] -> exit_status (l1 ++ l2) = exit_status l2.
Proof.
  intros H. induction l1 as [|e l1 IH]; [reflexivity|].
  cbn [app]. rewrite exit_status_cons; [exact IH|].
  destruct l1; [exact H | discriminate].
Qed.

Lemma calls_app (l1 l2 : list event) :
  calls (l1 ++ l2) = (calls l1 ++ calls l2)%list.
Proof. apply filter_app. Qed.

Lemma calls_Stdout (lines : list string) : calls (map Stdout lines) = [].
Proof. induction lines; [reflexivity | assumption]. Qed.

Lemma calls_exit (b : bool) (c : Z) : calls (exit b c) = [].
Proof. destruct b; reflexivity. Qed.

Lemma exit_status_exit (b : bool) (c : Z) : exit_status (exit b c) = Some c.
Proof. destruct b; reflexivity. Qed.

Section Loop.

Variable nanpush : option (list Z).
Variable args : cli.
Variable t : Z.
Variable m : master_call.
Hypothesis sends : doAction nanpush args = Done m.

Lemma dispatch_nonempty (replies : list reply) :
  dispatch nanpush args t replies <> [].
Proof. destruct replies; cbn [dispatch]; rewrite sends; discriminate. Qed.

Lemma dispatch_step (r : reply) (rest : list reply) :
  dispatch nanpush args t (r :: rest)
  = Call m ::
    (map Stdout (fst (output args t (reply_time r) (reply_err r)
                             (reply_buffer r)))
     ++ match snd (output args t (reply_time r) (reply_err r)
                          (reply_buffer r)) with
        | Terminate code => exit true code
        | Again => dispatch nanpush args t rest
        end)%list.
Proof.
  cbn [dispatch]. rewrite sends.
  destruct (output args t (reply_time r) (reply_err r) (reply_buffer r)).
  reflexivity.
Qed.

Lemma dispatch_error (r : reply) (rest : list reply) :
  reply_err r <> None ->
  calls (dispatch nanpush args t (r :: rest)) = [Call m] /\
  exit_status (dispatch nanpush args t (r :: rest)) = Some 1.
Proof.
  intros H. rewrite dispatch_step. unfold output.
  destruct (reply_err r); [|contradiction]. cbn [fst snd map app].
  split.
  - change (calls (Call m :: exit true 1)) with (Call m :: calls (exit true 1)).
    rewrite calls_exit. reflexivity.
  - reflexivity.
Qed.

Lemma dispatch_loop_ok (loops : truthy (args_loop args) = true)
    (r : reply) (rest : list reply) :
  reply_err r = None ->
  calls (dispatch nanpush args t (r :: rest))
  = Call m :: calls (dispatch nanpush args t rest) /\
  exit_status (dispatch nanpush args t (r :: rest))
  = exit_status (dispatch nanpush args t rest).
Proof.
  intros H. rewrite dispatch_step. unfold output. rewrite H, loops.
  cbn [fst snd]. split.
  - change (calls (Call m :: ?l)) with (Call m :: calls l).
    rewrite calls_app, calls_Stdout. reflexivity.
  - rewrite exit_status_cons.
    + apply exit_status_app. apply dispatch_nonempty.
    + intros E. apply app_eq_nil in E. destruct E as [_ E].
      exact (dispatch_nonempty _ E).
Qed.

End Loop.

(** X16.  One request per reply.  When the command line yields a
    request, without [--loop] the first reply ends the run: one request
    was sent and the status is 0, or 1 if the reply carries an error.
    With [--loop] each reply without error is followed by the same
    request again and the run does not end; the first reply with an
    error ends it with status 1, and what the master might answer after
    that is never asked for. *)
Theorem one_request_per_reply (nanpush : option (list Z)) (args : cli)
    (t : Z) (m : master_call) :
  doAction nanpush args = Done m ->
  (truthy (args_loop args) = false ->
   forall r rest,
     calls (dispatch nanpush args t (r :: rest)) = [Call m] /\
     exit_status (dispatch nanpush args t (r :: rest))
     = Some (match reply_err r with Some _ => 1 | None => 0 end)) /\
  (truthy (args_loop args) = true ->
   forall oks,
     Forall (fun r => reply_err r = None) oks ->
     calls (dispatch nanpush args t oks)
     = repeat (Call m) (S (List.length oks)) /\
     exit_status (dispatch nanpush args t oks) = None /\
     forall bad rest,
       reply_err bad <> None ->
       calls (dispatch nanpush args t (oks ++ bad :: rest))
       = repeat (Call m) (S (List.length oks)) /\
       exit_status (dispatch nanpush args t (oks ++ bad :: rest)) = Some 1).
Proof.
  intros S0. split.
  - intros L r rest. destruct (reply_err r) as [e|] eqn:E.
    + apply (dispatch_error nanpush args t m S0). rewrite E. discriminate.
    + rewrite (dispatch_step nanpush args t m S0). unfold output.
      rewrite E, L. cbn [fst snd]. split.
      * change (calls (Call m :: ?l)) with (Call m :: calls l).
        rewrite calls_app, calls_Stdout, calls_exit. reflexivity.
      * rewrite exit_status_cons.
        -- rewrite exit_status_app by discriminate. reflexivity.
        -- intros Q. apply app_eq_nil in Q. destruct Q as [_ Q].
           discriminate Q.
  - intros L oks F. induction F as [|r oks Hr F IH].
    + split; [|split].
      * cbn [dispatch]. rewrite S0. reflexivity.
      * cbn [dispatch]. rewrite S0. reflexivity.
      * intros bad rest Hbad.
        exact (dispatch_error nanpush args t m S0 bad rest Hbad).
    + destruct IH as (IH1 & IH2 & IH3).
      destruct (dispatch_loop_ok nanpush args t m S0 L r oks Hr) as [C E].
      split; [|split].
      * rewrite C, IH1. reflexivity.
      * rewrite E. exact IH2.
      * intros bad rest Hbad.
        destruct (dispatch_loop_ok nanpush args t m S0 L r
                    (oks ++ bad :: rest) Hr) as [C' E'].
        destruct (IH3 bad rest Hbad) as [I1 I2].
        cbn [app]. split.
        -- rewrite C', I1. reflexivity.
        -- rewrite E'. exact I2.
Qed.

(** [mb read holding 0 3 --out=csv --loop]: two good replies, then a
    timeout, then a reply that is never used. *)
Lemma one_request_per_reply_witness :
  calls (dispatch None read_csv_loop 100
           [three_registers 137; three_registers 150;
            {| reply_err := Some "timeout"; reply_buffer := [];
               reply_time := 2150 |};
            three_registers 2200])
  = [Call (readHoldingRegisters (JNum 0) (JNum 3));
     Call (readHoldingRegisters (JNum 0) (JNum 3));
     Call (readHoldingRegisters (JNum 0) (JNum 3))] /\
  exit_status
    (dispatch None read_csv_loop 100
       [three_registers 137; three_registers 150;
        {| reply_err := Some "timeout"; reply_buffer := [];
           reply_time := 2150 |};
        three_registers 2200])
  = Some 1.
Proof.
  assert (F : Forall (fun r => reply_err r = None)
                [three_registers 137; three_registers 150])
    by (repeat constructor).
  destruct (proj2 (one_request_per_reply None read_csv_loop 100
                     (readHoldingRegisters (JNum 0) (JNum 3)) eq_refl)
              eq_refl _ F) as (_ & _ & H).
  refine (H {| reply_err := Some "timeout"; reply_buffer := [];
               reply_time := 2150 |} [three_registers 2200] _).
  discriminate.
Defined.

(** ** The master *)

Lemma masters_app (l1 l2 : list event) :
  masters (l1 ++ l2) = (masters l1 ++ masters l2)%list.
Proof.
  induction l1 as [|e l1 IH]; [reflexivity|].
  destruct e; cbn [app masters]; rewrite IH; reflexivity.
Qed.

Lemma masters_Stdout (lines : list string) : masters (map Stdout lines) = [].
Proof. induction lines; [reflexivity | assumption]. Qed.

Lemma masters_exit (b : bool) (c : Z) : masters (exit b c) = [].
Proof. destruct b; reflexivity. Qed.

Section Masters.

Variable nanpush : option (list Z).

Lemma masters_dispatch (args : cli) (t : Z) :
  forall replies, masters (dispatch nanpush args t replies) = [].
Proof.
  induction replies as [|r rest IH]; cbn [dispatch];
    destruct (doAction nanpush args); cbn [masters];
    try apply masters_exit; try reflexivity.
  destruct (output args t (reply_time r) (reply_err r) (reply_buffer r))
    as [printed next].
  rewrite masters_app, masters_Stdout. cbn [app].
  destruct next; [apply masters_exit | exact IH].
Qed.

Lemma masters_connected (args : cli) (w : link) :
  masters (connected nanpush args w) = [].
Proof.
  destruct w; cbn [connected masters]; try reflexivity.
  apply masters_dispatch.
Qed.

Lemma masters_opened (args : cli) (w : link) :
  masters (opened nanpush args w) = [].
Proof.
  destruct w; cbn [opened masters]; try apply masters_connected.
  apply masters_exit.
Qed.

Lemma masters_connect (args : cli) (c : config) (w : link) (c0 : config) :
  In c0 (masters (connect nanpush args c w)) ->
  masters (connect nanpush args c w) = [c0] /\
  (master_transport_connection_type c = JStr "serial" /\ c0 = c \/
   master_transport_connection_type c = JStr "websocket" /\ c0 = c \/
   master_transport_connection_type c = JStr "ble" /\
     c0 = with_transport (with_connection c "generic") "ip" \/
   master_transport_connection_type c = JStr "can-usb-com" /\
     c0 = with_connection c "generic").
Proof.
  unfold connect, createMaster.
  destruct (same _ "serial") eqn:E1.
  { apply same_iff in E1. cbn [app masters]. rewrite masters_opened.
    intros [<- | []]. split; [reflexivity | left; split; [exact E1 | reflexivity]]. }
  destruct (same _ "websocket") eqn:E2.
  { apply same_iff in E2. cbn [app masters]. rewrite masters_connected.
    intros [<- | []].
    split; [reflexivity | right; left; split; [exact E2 | reflexivity]]. }
  destruct (same _ "ble") eqn:E3.
  { apply same_iff in E3.
    destruct w; cbn [app masters]; try rewrite masters_connected.
    - intros [].
    - intros [<- | []].
      split; [reflexivity|]. right; right; left. split; [exact E3 | reflexivity].
    - intros [<- | []].
      split; [reflexivity|]. right; right; left. split; [exact E3 | reflexivity]. }
  destruct (same _ "can-usb-com") eqn:E4.
  { apply same_iff in E4. cbn [app masters]. rewrite masters_opened.
    intros [<- | []].
    split; [reflexivity|]. right; right; right. split; [exact E4 | reflexivity]. }
  intros [].
Qed.

Lemma masters_after_setup (args : cli) (c : config) (w : link)
    (c0 : config) :
  In c0 (masters (after_setup nanpush args c w)) ->
  masters (after_setup nanpush args c w)
  = masters (connect nanpush args c w) /\
  In c0 (masters (connect nanpush args c w)).
Proof.
  unfold after_setup, run.
  destruct (truthy (args_h args)); [intros []|].
  destruct (truthy (args_l args)).
  { destruct (same _ "ble"); [intros []|].
    destruct (same _ "serial"); intros []. }
  destruct (truthy (args_show args)); [intros []|].
  destruct (unknownAction _); [intros []|].
  intros H. split; [reflexivity | exact H].
Qed.

End Masters.

(** X17.  At most one master is created in a run, and never for a
    connection of kind [ble] or [can-usb-com]: it gets the effective
    configuration as it is for [serial] and [websocket], with the
    connection renamed [generic] for [can-usb-com], and with connection
    [generic] and transport [ip] for [ble]. *)
Theorem master_is_created_once (nanpush : option (list Z)) (args : cli)
    (env : environment) (f : config_file) (fs_ok : bool) (w : link)
    (c : config) :
  let trace := main nanpush args env f fs_ok w in
  let e := effective args env f in
  In c (masters trace) ->
  masters trace = [c] /\
  (master_transport_connection_type e = JStr "serial" /\ c = e \/
   master_transport_connection_type e = JStr "websocket" /\ c = e \/
   master_transport_connection_type e = JStr "ble" /\
     c = with_transport (with_connection e "generic") "ip" \/
   master_transport_connection_type e = JStr "can-usb-com" /\
     c = with_connection e "generic") /\
  (master_transport_connection_type c = JStr "serial" \/
   master_transport_connection_type c = JStr "websocket" \/
   master_transport_connection_type c = JStr "generic").
Proof.
  cbv zeta. intros H.
  assert (A : masters (main nanpush args env f fs_ok w)
              = masters (connect nanpush args (effective args env f) w) /\
              In c (masters (connect nanpush args (effective args env f) w))).
  { unfold main in H |- *. fold (effective args env f) in H |- *.
    destruct (truthy (args_save args)).
    - cbn [masters] in H |- *. destruct fs_ok; cbn [masters] in H |- *.
      + exact (masters_after_setup _ _ _ _ _ H).
      + destruct H.
    - exact (masters_after_setup _ _ _ _ _ H). }
  destruct A as [A1 A2]. rewrite A1.
  destruct (masters_connect _ _ _ _ _ A2) as [M K].
  split; [exact M|]. split; [exact K|].
  destruct K as [[K ->] | [[K ->] | [[_ ->] | [_ ->]]]].
  - left. exact K.
  - right. left. exact K.
  - right. right. reflexivity.
  - right. right. reflexivity.
Qed.

(** [mb read slave --port=AA:BB:CC:DD:EE:FF --save], discovered and
    connected. *)
Lemma master_is_created_once_witness :
  masters (main None save_mac bare_env FileAbsent true (LinkUp 0 []))
  = [with_transport
       (with_connection (effective save_mac bare_env FileAbsent) "generic")
       "ip"].
Proof.
  refine (proj1 (master_is_created_once None save_mac bare_env FileAbsent
                   true (LinkUp 0 [])
                   (with_transport
                      (with_connection
                         (effective save_mac bare_env FileAbsent) "generic")
                      "ip") _)).
  vm_compute. left. reflexivity.
Defined.

(** ** A connection kind the script does not know *)

(** X18.  A connection kind other than [serial], [websocket], [ble] and
    [can-usb-com] is not turned down: with a valid action and none of
    [-h], [-l], [--show], [--save], the script does nothing at all, no
    master, no message, no exit. *)
Theorem unknown_connection_does_nothing (nanpush : option (list Z))
    (args : cli) (env : environment) (f : config_file) (fs_ok : bool)
    (w : link) :
  truthy (args_save args) = false ->
  truthy (args_h args) = false ->
  truthy (args_l args) = false ->
  truthy (args_show args) = false ->
  unknownAction (elem (args__ args) 0) = false ->
  master_transport_connection_type (effective args env f) <> JStr "serial" ->
  master_transport_connection_type (effective args env f)
    <> JStr "websocket" ->
  master_transport_connection_type (effective args env f) <> JStr "ble" ->
  master_transport_connection_type (effective args env f)
    <> JStr "can-usb-com" ->
  main nanpush args env f fs_ok w = [].
Proof.
  intros Hs Hh Hl Hw Ha K1 K2 K3 K4.
  unfold main, after_setup, run. fold (effective args env f).
  rewrite Hs, Hh, Hl, Hw, Ha. unfold connect.
  destruct (same _ "serial") eqn:E1; [apply same_iff in E1; contradiction|].
  destruct (same _ "websocket") eqn:E2; [apply same_iff in E2; contradiction|].
  destruct (same _ "ble") eqn:E3; [apply same_iff in E3; contradiction|].
  destruct (same _ "can-usb-com") eqn:E4;
    [apply same_iff in E4; contradiction|].
  reflexivity.
Qed.

(** [mb read slave --connection=tcp]. *)
Lemma unknown_connection_does_nothing_witness :
  main None
    {| args_default := JUndefined; args_port := JUndefined;
       args_slave := JUndefined; args_baudrate := JUndefined;
       args_baud := JUndefined; args_baudRate := JUndefined;
       args_transport := JUndefined; args_connection := JStr "tcp";
       args_canrate := JUndefined; args_canid := JUndefined;
       args_save := JUndefined; args_l := JUndefined;
       args_h := JUndefined; args_show := JUndefined;
       args_out := JUndefined; args_loop := JUndefined;
       args_length := JUndefined;
       args__ := [TStr "read"; TStr "slave"] |}
    bare_env FileAbsent true (LinkUp 0 [])
  = [].
Proof.
  apply unknown_connection_does_nothing;
    try reflexivity; vm_compute; discriminate.
Defined.

(** ** The logger options *)




(** ** The CSV line *)

Lemma commas_app (a b : string) :
  commas (a ++ b) = (commas a + commas b)%nat.
Proof.
  induction a as [|c a IH]; [reflexivity|].
  cbn [append commas]. rewrite IH. lia.
Qed.

Lemma commas_string_of_uint (u : Decimal.uint) :
  commas (NilEmpty.string_of_uint u) = 0%nat.
Proof. induction u; cbn [NilEmpty.string_of_uint commas]; auto. Qed.

Lemma commas_string_of_Z (z : Z) : commas (string_of_Z z) = 0%nat.
Proof.
  unfold string_of_Z. destruct z; cbn [Z.to_int NilEmpty.string_of_int];
    apply commas_string_of_uint.
Qed.

Lemma commas_joined (zs : list Z) :
  commas (String.concat "," (map string_of_Z zs))
  = (List.length zs - 1)%nat.
Proof.
  induction zs as [|z zs IH]; [reflexivity|].
  destruct zs as [|z' zs].
  - cbn [map String.concat]. rewrite commas_string_of_Z. reflexivity.
  - change (String.concat "," (map string_of_Z (z :: z' :: zs)))
      with (string_of_Z z ++ ","
              ++ String.concat "," (map string_of_Z (z' :: zs))).
    rewrite !commas_app, commas_string_of_Z, IH.
    change (commas ",") with 1%nat. cbn [List.length]. lia.
Qed.

(** X20.  The shape of the CSV line.  When [--out] is [csv], a reply
    without error prints one line whose fields hold no comma of their
    own: the line has as many commas as the response has octets, one
    field for the time and one per octet.  An empty response still gets
    its comma, the time followed by an empty field. *)
Theorem csv_line_shape (args : cli) (startTime now : Z)
    (response : list Z) :
  args_out args = JStr "csv" ->
  exists line,
    fst (output args startTime now None response) = [line] /\
    commas line = Nat.max 1 (List.length response).
Proof.
  intros H. unfold output. rewrite H. cbn [strict_eq fst].
  change (String.eqb "csv" "csv") with true. cbv iota zeta.
  eexists. split; [reflexivity|].
  rewrite !commas_app, commas_string_of_Z, commas_joined.
  change (commas ",") with 1%nat.
  destruct response; cbn [List.length]; lia.
Qed.

(** A response of six octets and an empty one. *)
Lemma csv_line_shape_witness :
  fst (output read_csv 100 137 None [0; 10; 0; 20; 1; 44])
  = ["37,0,10,0,20,1,44"] /\
  fst (output read_csv 100 137 None []) = ["37,"] /\
  exists line,
    fst (output read_csv 100 137 None []) = [line] /\
    commas line = Nat.max 1 (List.length (@nil Z)).
Proof.
  split; [reflexivity|]. split; [reflexivity|].
  exact (csv_line_shape read_csv 100 137 [] eq_refl).
Defined.

(** ** Saving and loading again *)

Lemma jor_idempotent (x y : jsval) : jor x (jor x y) = jor x y.
Proof. unfold jor. destruct (truthy x); reflexivity. Qed.

Lemma config_eq (c d : config) :
  port_name c = port_name d ->
  port_options_baudRate c = port_options_baudRate d ->
  port_options_autoOpen c = port_options_autoOpen d ->
  can_rate c = can_rate d ->
  can_myid c = can_myid d ->
  master_transport_type c = master_transport_type d ->
  master_transport_connection_type c = master_transport_connection_type d ->
  master_defaultUnit c = master_defaultUnit d ->
  c = d.
Proof. destruct c, d; cbn; intros; subst; reflexivity. Qed.

(** X21.  What [--save] wrote is what the next run finds.  Taking the
    saved object as the defaults file of a second run: with the same
    command line and environment the second run resolves, and goes on,
    with the same configuration as the first; with no option and no
    [MODBUS_*] variable at all it resolves to the saved configuration
    itself. *)
Theorem saved_configuration_is_stable (args : cli) (env : environment)
    (f : config_file) :
  truthy (args_default args) = false ->
  resolved args env (FileJson (resolved args env f)) = resolved args env f /\
  effective args env (FileJson (resolved args env f)) = effective args env f /\
  (forall args' env' c,
      truthy (args_default args') = false ->
      (forall k, truthy (cli_value k args') = false) ->
      (forall k, env_value k env' = None \/ env_value k env' = Some "") ->
      resolved args' env' (FileJson c) = c).
Proof.
  intros D.
  assert (R : resolved args env (FileJson (resolved args env f))
              = resolved args env f).
  { unfold resolved at 1. unfold loadConfig at 1. rewrite D.
    cbn [require]. unfold overrides at 1.
    apply config_eq;
      cbn [port_name port_options_baudRate port_options_autoOpen can_rate
           can_myid master_transport_type master_transport_connection_type
           master_defaultUnit];
      unfold resolved, overrides;
      cbn [port_name port_options_baudRate port_options_autoOpen can_rate
           can_myid master_transport_type master_transport_connection_type
           master_defaultUnit];
      try apply jor_idempotent; reflexivity. }
  split; [exact R|]. split; [unfold effective; rewrite R; reflexivity|].
  intros args' env' c D' Hc He.
  assert (K : forall k, config_value k (resolved args' env' (FileJson c))
                        = config_value k c).
  { intros k.
    assert (E : config_value k (resolved args' env' (FileJson c))
                = jor (jor (cli_value k args') (of_env (env_value k env')))
                      (config_value k (loadConfig args' (FileJson c))))
      by (destruct k; reflexivity).
    rewrite E. unfold jor at 2. rewrite (Hc k).
    rewrite jor_falsy by (destruct (He k) as [-> | ->]; reflexivity).
    unfold loadConfig. rewrite D'. reflexivity. }
  apply config_eq;
    [exact (K Port) | exact (K Baud) | | exact (K CanRate) | exact (K CanId)
    | exact (K Transport) | exact (K Connection) | exact (K Unit)].
  unfold resolved, overrides, loadConfig. rewrite D'. reflexivity.
Qed.

(** [mb read slave --port=AA:BB:CC:DD:EE:FF --save], then the same
    again. *)
Lemma saved_configuration_is_stable_witness :
  truthy (args_default save_mac) = false /\
  effective save_mac bare_env
    (FileJson (resolved save_mac bare_env FileAbsent))
  = effective save_mac bare_env FileAbsent.
Proof.
  split; [reflexivity|].
  exact (proj1 (proj2 (saved_configuration_is_stable save_mac bare_env
                         FileAbsent eq_refl))).
Defined.
